(** * Workout session lifecycle of [src/App.js]

    A shallow embedding of the session handlers, the rest timer and the
    timer display of the [App] component, and the properties of the
    lifecycle specification checked against them.

    Conventions of the embedding:
    - JavaScript Numbers that the handlers compute with are integer valued
      and are modelled by [Z]; their [ToString] is the decimal numeral
      ([pretty]), which is what JavaScript prints below 10^21.
    - JavaScript strings are modelled by [string] (ASCII text).
    - An exception is a [Throw]. Thrown by a handler itself (as in
      [handleStartWorkout]) it ends the event with the state as it was
      ([commit]). Thrown by a state updater passed to a React setter it
      surfaces while React renders, and as there is no error boundary the
      whole [App] is unmounted, its session with it ([afterUpdater]).
    - The memory of the engine is not modelled: where the program builds
      very large arrays it may abort although the embedding returns. *)

From Stdlib Require Import ZArith Ascii String Lia.
From stdpp Require Import base numbers option list strings pretty relations sorting.

Local Open Scope Z_scope.

(** ** JavaScript values and exceptions *)

Inductive JsError := TypeError | RangeError.

Inductive Result (A : Type) : Type :=
| Ok (a : A)
| Throw (e : JsError).
Arguments Ok {A} a.
Arguments Throw {A} e.

Global Instance Result_ret : MRet Result := λ A a, Ok a.
Global Instance Result_bind : MBind Result := λ A B f r,
  match r with
  | Ok a => f a
  | Throw e => Throw e
  end.
Global Instance Result_fmap : FMap Result := λ A B f r,
  match r with
  | Ok a => Ok (f a)
  | Throw e => Throw e
  end.

(** A value held in a numeric form field or target: a Number (the literal
    defaults of a new template) or the text of an [<input>]. *)
Inductive JsVal :=
| JNum (n : Z)
| JStr (s : string).

Global Instance JsVal_eq_dec : EqDecision JsVal.
Proof. solve_decision. Defined.

(** JavaScript truthiness of a string, as used by [!s] and [a || b]. *)
Definition truthyStr (s : string) : bool := negb (String.eqb s "").

(** *** [parseInt(v, 10)] *)

(** The ASCII members of the white space that [parseInt] trims. *)
Definition isWhiteSpace (c : ascii) : bool :=
  match nat_of_ascii c with
  | 9%nat | 10%nat | 11%nat | 12%nat | 13%nat | 32%nat => true
  | _ => false
  end.

Fixpoint trimStart (s : string) : string :=
  match s with
  | String c s' => if isWhiteSpace c then trimStart s' else s
  | EmptyString => EmptyString
  end.

(** Value of the longest prefix of decimal digits, continuing from [acc]. *)
Fixpoint digitsFrom (acc : Z) (s : string) : Z :=
  match s with
  | String c s' =>
      match Ascii.is_nat c with
      | Some d => digitsFrom (10 * acc + Z.of_nat d) s'
      | None => acc
      end
  | EmptyString => acc
  end.

(** [None] is NaN: the text has no digit where the numeral must start. *)
Definition parseDigits (s : string) : option Z :=
  match s with
  | String c _ =>
      match Ascii.is_nat c with
      | Some _ => Some (digitsFrom 0 s)
      | None => None
      end
  | EmptyString => None
  end.

Definition parseIntStr (s : string) : option Z :=
  match trimStart s with
  | String "-"%char s' => Z.opp <$> parseDigits s'
  | String "+"%char s' => parseDigits s'
  | s' => parseDigits s'
  end.

(** [parseInt] first converts its argument to a string. *)
Definition parseInt (v : JsVal) : option Z :=
  match v with
  | JNum n => parseIntStr (pretty n)
  | JStr s => parseIntStr s
  end.

(** [x || 1] on the Number [x]: NaN and 0 are falsy. *)
Definition orOne (x : option Z) : Z :=
  match x with
  | None => 1
  | Some 0 => 1
  | Some n => n
  end.

(** *** Arrays *)

(** The largest length of a JavaScript array, 2^32 - 1. *)
Definition maxArrayLength : Z := 4294967295.

(** ** Rest timer (App.js, Timer Logic) *)

Record TimerState := {
  timerActive : bool;
  timerPaused : bool;
  timerSeconds : Z
}.

Global Instance TimerState_eq_dec : EqDecision TimerState.
Proof. solve_decision. Defined.

(** The state hooks' initial values. *)
Definition initialTimer : TimerState :=
  {| timerActive := false; timerPaused := false; timerSeconds := 180 |}.

(** [startTimer(duration = 180)]; [None] is a call without argument. *)
Definition startTimer (duration : option Z) (t : TimerState) : TimerState :=
  {| timerActive := true;
     timerPaused := false;
     timerSeconds := default 180 duration |}.

Definition pauseTimer (t : TimerState) : TimerState :=
  {| timerActive := timerActive t;
     timerPaused := true;
     timerSeconds := timerSeconds t |}.

Definition resumeTimer (t : TimerState) : TimerState :=
  {| timerActive := timerActive t;
     timerPaused := false;
     timerSeconds := timerSeconds t |}.

Definition stopTimer (t : TimerState) : TimerState :=
  {| timerActive := false; timerPaused := false; timerSeconds := 180 |}.

(** One firing of the interval callback. The effect installs the interval
    only while [timerActive && !timerPaused] and clears it otherwise, so
    an elapsed second changes nothing in the other states. *)
Definition tick (t : TimerState) : TimerState :=
  if timerActive t && negb (timerPaused t) then
    if timerSeconds t <=? 1 then
      {| timerActive := false;
         timerPaused := timerPaused t;
         timerSeconds := 0 |}
    else
      {| timerActive := timerActive t;
         timerPaused := timerPaused t;
         timerSeconds := timerSeconds t - 1 |}
  else t.

Definition ticks (n : nat) (t : TimerState) : TimerState := Nat.iter n tick t.

(** [formatTime]: [Math.floor(totalSeconds / 60)] is the floor quotient and
    [%] the truncating remainder. *)
Definition formatTime (totalSeconds : Z) : string :=
  let minutes := totalSeconds `div` 60 in
  let seconds := totalSeconds `rem` 60 in
  pretty minutes +:+ ":" +:+ (if seconds <? 10 then "0" else "") +:+ pretty seconds.

(** The character of a decimal digit. *)
Definition digitChar (d : Z) : ascii := ascii_of_nat (48 + Z.to_nat d).

(** A number below 100 written with two decimal digits. *)
Definition twoDigits (s : Z) : string :=
  String (digitChar (s `div` 10)) (String (digitChar (s `mod` 10)) "").

(** A text that begins with a decimal digit. *)
Definition startsWithDigit (s : string) : Prop :=
  match s with
  | String c _ => is_Some (Ascii.is_nat c)
  | EmptyString => False
  end.


(** ** Data model of the session handlers *)

(** One entry of [loggedSets]: [{ reps, weight, completed }]. *)
Record LoggedSet := {
  reps : JsVal;
  weight : JsVal;
  completed : bool
}.

Global Instance LoggedSet_eq_dec : EqDecision LoggedSet.
Proof. solve_decision. Defined.

(** A position of a JavaScript array of sets: an object, [null] (left by
    [fill(null)] or by the JSON copy of a hole), or a hole of a sparse
    array. *)
Inductive Slot :=
| Hole
| Null
| Entry (s : LoggedSet).

Global Instance Slot_eq_dec : EqDecision Slot.
Proof. solve_decision. Defined.

(** An exercise of a template:
    [{ id, name, targetSets, targetReps, targetWeight }]. *)
Record TemplateExercise := {
  ex_id : string;
  ex_name : string;
  targetSets : JsVal;
  targetReps : JsVal;
  targetWeight : JsVal
}.

Global Instance TemplateExercise_eq_dec : EqDecision TemplateExercise.
Proof. solve_decision. Defined.

(** A workout template document; [tpl_id] is [null] until it is saved. *)
Record WorkoutTemplate := {
  tpl_id : option string;
  tpl_name : string;
  tpl_exercises : list TemplateExercise
}.

(** An exercise of the running workout: [{ ...ex, loggedSets }]. *)
Record SessionExercise := {
  template : TemplateExercise;
  loggedSets : list Slot
}.

Global Instance SessionExercise_eq_dec : EqDecision SessionExercise.
Proof. solve_decision. Defined.

(** The value of a time field. [serverTimestamp()] returns Firestore's
    sentinel object; a JSON copy of it is plain data and no longer the
    sentinel. *)
Inductive Timestamp :=
| serverTimestamp
| jsonOfServerTimestamp.

Global Instance Timestamp_eq_dec : EqDecision Timestamp.
Proof. solve_decision. Defined.

(** The object held by the [activeWorkout] state hook. *)
Record ActiveWorkout := {
  templateId : option string;
  aw_name : string;
  startTime : Timestamp;
  aw_bodyWeight : string;
  aw_notes : string;
  aw_exercises : list SessionExercise;
  isCompleted : bool
}.

Global Instance ActiveWorkout_eq_dec : EqDecision ActiveWorkout.
Proof. solve_decision. Defined.

(** The document handed to [addDoc]:
    [{ ...activeWorkout, bodyWeight, notes, endTime, isCompleted, exercises }]. *)
Record WorkoutLog := {
  log_fields : ActiveWorkout;
  endTime : Timestamp
}.

Global Instance WorkoutLog_eq_dec : EqDecision WorkoutLog.
Proof. solve_decision. Defined.

Inductive Screen :=
| ScreenHome
| ScreenCreateWorkout
| ScreenActiveWorkout
| ScreenWorkoutHistory.

Inductive Firestore := FirestoreDb.

(** The state hooks of [App] that the session handlers read or write. *)
Record AppState := {
  db : option Firestore;
  userId : option string;
  activeWorkout : option ActiveWorkout;
  currentScreen : Screen;
  timer : TimerState;
  bodyWeight : string;
  showBodyWeightInput : bool;
  workoutNotes : string
}.

(** What a handler does besides setting state. *)
Inductive Effect :=
| AddDoc (log : WorkoutLog)
| ConsoleError (msg : string)
| Alert (msg : string).

(** The state after an event whose handler ran to [r] without going
    through a state updater: a handler that throws commits nothing. *)
Definition commit (st : AppState) (r : Result AppState) : AppState :=
  match r with
  | Ok st' => st'
  | Throw _ => st
  end.

(** The app after an event whose state updater ran to [r]. An updater that
    throws does so while React renders; [App] has no error boundary, so it
    is unmounted and its state hooks, the session among them, are gone. *)
Inductive AppOutcome :=
| Mounted (st : AppState)
| Unmounted (e : JsError).

Definition afterUpdater (r : Result AppState) : AppOutcome :=
  match r with
  | Ok st' => Mounted st'
  | Throw e => Unmounted e
  end.

(** ** Arrays of sets *)

(** [Array(len)] with one Number argument: [len] holes, or a RangeError
    when [len] is not an array length. *)
Definition newArray (len : Z) : Result (list Slot) :=
  if (0 <=? len) && (len <=? maxArrayLength)
  then Ok (replicate (Z.to_nat len) Hole)
  else Throw RangeError.

(** [arr.fill(v)]. *)
Definition fill (v : Slot) (arr : list Slot) : list Slot :=
  (λ _, v) <$> arr.

(** [arr.map(f)]: holes are skipped and stay holes. *)
Definition arrayMap (f : Slot → Slot) (arr : list Slot) : list Slot :=
  (λ s, match s with Hole => Hole | _ => f s end) <$> arr.

(** [arr[i] = v]: inside the array the element is replaced; past its end
    the array grows, leaving holes; an [i] that is not an array index
    (2^32 - 1 and above) names an ordinary property and the elements stay
    as they are. *)
Definition arraySet (arr : list Slot) (i : nat) (v : Slot) : list Slot :=
  if decide (i < length arr)%nat then <[i := v]> arr
  else if Z.of_nat i <? maxArrayLength
       then arr ++ replicate (i - length arr) Hole ++ [v]
       else arr.

(** [arr.filter(s => s.completed)]: holes are skipped, reading a property
    of [null] is a TypeError. *)
Fixpoint filterCompleted (arr : list Slot) : Result (list Slot) :=
  match arr with
  | [] => Ok []
  | Hole :: arr' => filterCompleted arr'
  | Null :: _ => Throw TypeError
  | Entry s :: arr' =>
      rest ← filterCompleted arr';
      mret (if completed s then Entry s :: rest else rest)
  end.

(** ** [JSON.parse(JSON.stringify(prev))] *)

Definition jsonSlot (s : Slot) : Slot :=
  match s with
  | Hole => Null
  | other => other
  end.

Definition jsonTimestamp (t : Timestamp) : Timestamp :=
  match t with
  | serverTimestamp => jsonOfServerTimestamp
  | other => other
  end.

Definition jsonExercise (ex : SessionExercise) : SessionExercise :=
  {| template := template ex; loggedSets := jsonSlot <$> loggedSets ex |}.

Definition jsonCopy (aw : ActiveWorkout) : ActiveWorkout :=
  {| templateId := templateId aw;
     aw_name := aw_name aw;
     startTime := jsonTimestamp (startTime aw);
     aw_bodyWeight := aw_bodyWeight aw;
     aw_notes := aw_notes aw;
     aw_exercises := jsonExercise <$> aw_exercises aw;
     isCompleted := isCompleted aw |}.

(** ** Record updates *)

Definition withLoggedSets (ex : SessionExercise) (sets : list Slot)
  : SessionExercise :=
  {| template := template ex; loggedSets := sets |}.

Definition withExercises (aw : ActiveWorkout) (exs : list SessionExercise)
  : ActiveWorkout :=
  {| templateId := templateId aw;
     aw_name := aw_name aw;
     startTime := startTime aw;
     aw_bodyWeight := aw_bodyWeight aw;
     aw_notes := aw_notes aw;
     aw_exercises := exs;
     isCompleted := isCompleted aw |}.

Definition withActiveWorkout (st : AppState) (aw : option ActiveWorkout)
  : AppState :=
  {| db := db st;
     userId := userId st;
     activeWorkout := aw;
     currentScreen := currentScreen st;
     timer := timer st;
     bodyWeight := bodyWeight st;
     showBodyWeightInput := showBodyWeightInput st;
     workoutNotes := workoutNotes st |}.

Definition withBodyWeight (st : AppState) (value : string) : AppState :=
  {| db := db st;
     userId := userId st;
     activeWorkout := activeWorkout st;
     currentScreen := currentScreen st;
     timer := timer st;
     bodyWeight := value;
     showBodyWeightInput := showBodyWeightInput st;
     workoutNotes := workoutNotes st |}.

Definition withWorkoutNotes (st : AppState) (value : string) : AppState :=
  {| db := db st;
     userId := userId st;
     activeWorkout := activeWorkout st;
     currentScreen := currentScreen st;
     timer := timer st;
     bodyWeight := bodyWeight st;
     showBodyWeightInput := showBodyWeightInput st;
     workoutNotes := value |}.

Definition withShowBodyWeightInput (st : AppState) (shown : bool) : AppState :=
  {| db := db st;
     userId := userId st;
     activeWorkout := activeWorkout st;
     currentScreen := currentScreen st;
     timer := timer st;
     bodyWeight := bodyWeight st;
     showBodyWeightInput := shown;
     workoutNotes := workoutNotes st |}.

Definition withCurrentScreen (st : AppState) (screen : Screen) : AppState :=
  {| db := db st;
     userId := userId st;
     activeWorkout := activeWorkout st;
     currentScreen := screen;
     timer := timer st;
     bodyWeight := bodyWeight st;
     showBodyWeightInput := showBodyWeightInput st;
     workoutNotes := workoutNotes st |}.

Definition withTimer (st : AppState) (t : TimerState) : AppState :=
  {| db := db st;
     userId := userId st;
     activeWorkout := activeWorkout st;
     currentScreen := currentScreen st;
     timer := t;
     bodyWeight := bodyWeight st;
     showBodyWeightInput := showBodyWeightInput st;
     workoutNotes := workoutNotes st |}.

(** ** Active workout management (App.js, handlers) *)

(** The placeholder [{ reps: '', weight: '', completed: false }]. *)
Definition emptySet : LoggedSet :=
  {| reps := JStr ""; weight := JStr ""; completed := false |}.

(** [Array(parseInt(ex.targetSets, 10) || 1).fill(null).map(() => ({...}))].
    Up to the largest array length the array is built, whatever memory
    the program would need for it. *)
Definition seedLoggedSets (ex : TemplateExercise) : Result (list Slot) :=
  arr ← newArray (orOne (parseInt (targetSets ex)));
  mret (arrayMap (λ _, Entry emptySet) (fill Null arr)).

Definition newSessionExercise (ex : TemplateExercise) : Result SessionExercise :=
  sets ← seedLoggedSets ex;
  mret {| template := ex; loggedSets := sets |}.

(** The object literal [newActiveWorkout] of [handleStartWorkout]. *)
Definition newActiveWorkout (workoutTemplate : WorkoutTemplate)
  : Result ActiveWorkout :=
  exs ← mapM newSessionExercise (tpl_exercises workoutTemplate);
  mret {| templateId := tpl_id workoutTemplate;
          aw_name := tpl_name workoutTemplate;
          startTime := serverTimestamp;
          aw_bodyWeight := "";
          aw_notes := "";
          aw_exercises := exs;
          isCompleted := false |}.

Definition handleStartWorkout (workoutTemplate : WorkoutTemplate) (st : AppState)
  : Result AppState :=
  aw ← newActiveWorkout workoutTemplate;
  mret {| db := db st;
          userId := userId st;
          activeWorkout := Some aw;
          currentScreen := ScreenActiveWorkout;
          timer := timer st;
          bodyWeight := "";
          showBodyWeightInput := true;
          workoutNotes := "" |}.

(** The updater of [handleLogSet]. [{ ...prev }] of [null] is [{}], whose
    [exercises] is undefined; indexing undefined, or reading [loggedSets]
    of a missing exercise, is a TypeError. *)
Definition logSetUpdater (exerciseIndex setIndex : nat) (r w : JsVal)
    (prev : option ActiveWorkout) : Result ActiveWorkout :=
  match prev with
  | None => Throw TypeError
  | Some aw =>
      match aw_exercises aw !! exerciseIndex with
      | None => Throw TypeError
      | Some ex =>
          let sets :=
            arraySet (loggedSets ex) setIndex
              (Entry {| reps := r; weight := w; completed := true |}) in
          Ok (withExercises aw
                (<[exerciseIndex := withLoggedSets ex sets]> (aw_exercises aw)))
      end
  end.

(** [handleLogSet]: the updater, then [startTimer()]. When the updater
    throws, React raises the error while rendering ([afterUpdater]). *)
Definition handleLogSet (exerciseIndex setIndex : nat) (r w : JsVal)
    (st : AppState) : Result AppState :=
  aw ← logSetUpdater exerciseIndex setIndex r w (activeWorkout st);
  mret (withTimer (withActiveWorkout st (Some aw)) (startTimer None (timer st))).

(** The "Log Set" button rendered for the set [set] at
    [exercises[exIndex].loggedSets[setIndex]]:
    [onClick={() => handleLogSet(exIndex, setIndex, set.reps, set.weight)}]. *)
Definition logSetButton (exIndex setIndex : nat) (set : LoggedSet)
    (st : AppState) : Result AppState :=
  handleLogSet exIndex setIndex (reps set) (weight set) st.

(** JavaScript truthiness of a field value. *)
Definition truthy (v : JsVal) : bool :=
  match v with
  | JNum n => negb (n =? 0)
  | JStr s => truthyStr s
  end.

(** The button is rendered when [!set.completed && (set.reps || set.weight)]. *)
Definition logSetButtonShown (set : LoggedSet) : bool :=
  negb (completed set) && (truthy (reps set) || truthy (weight set)).

(** [arr.push(v)]; growing past the largest length is a TypeError. *)
Definition push (arr : list Slot) (v : Slot) : Result (list Slot) :=
  if Z.of_nat (length arr) <? maxArrayLength then Ok (arr ++ [v])
  else Throw TypeError.

Definition addSetUpdater (exerciseIndex : nat) (prev : option ActiveWorkout)
  : Result ActiveWorkout :=
  match prev with
  | None => Throw TypeError
  | Some aw =>
      match aw_exercises aw !! exerciseIndex with
      | None => Throw TypeError
      | Some ex =>
          sets ← push (loggedSets ex) (Entry emptySet);
          mret (withExercises aw
                  (<[exerciseIndex := withLoggedSets ex sets]> (aw_exercises aw)))
      end
  end.

Definition handleAddSetToExercise (exerciseIndex : nat) (st : AppState)
  : Result AppState :=
  aw ← addSetUpdater exerciseIndex (activeWorkout st);
  mret (withActiveWorkout st (Some aw)).

(** The two fields the set inputs edit. *)
Inductive SetField := FieldReps | FieldWeight.

Definition setField (field : SetField) (value : JsVal) (s : LoggedSet)
  : LoggedSet :=
  match field with
  | FieldReps => {| reps := value; weight := weight s; completed := completed s |}
  | FieldWeight => {| reps := reps s; weight := value; completed := completed s |}
  end.

(** The updater of [handleSetInputChange]: it works on a JSON copy, and
    assigning a property of [undefined] or [null] is a TypeError. *)
Definition setInputUpdater (exerciseIndex setIndex : nat) (field : SetField)
    (value : JsVal) (prev : option ActiveWorkout) : Result ActiveWorkout :=
  match jsonCopy <$> prev with
  | None => Throw TypeError
  | Some aw =>
      match aw_exercises aw !! exerciseIndex with
      | None => Throw TypeError
      | Some ex =>
          match loggedSets ex !! setIndex with
          | Some (Entry s) =>
              let sets := <[setIndex := Entry (setField field value s)]> (loggedSets ex) in
              Ok (withExercises aw
                    (<[exerciseIndex := withLoggedSets ex sets]> (aw_exercises aw)))
          | _ => Throw TypeError
          end
      end
  end.

Definition handleSetInputChange (exerciseIndex setIndex : nat)
    (field : SetField) (value : JsVal) (st : AppState) : Result AppState :=
  aw ← setInputUpdater exerciseIndex setIndex field value (activeWorkout st);
  mret (withActiveWorkout st (Some aw)).

(** [a || b] on strings: the first one that is not empty. *)
Definition orStr (a b : string) : string := if truthyStr a then a else b.

Definition finishExercise (ex : SessionExercise) : Result SessionExercise :=
  sets ← filterCompleted (loggedSets ex);
  mret (withLoggedSets ex sets).

(** The object literal [workoutLog] of [handleFinishWorkout]. *)
Definition buildWorkoutLog (st : AppState) (aw : ActiveWorkout)
  : Result WorkoutLog :=
  let finalBodyWeight := orStr (orStr (bodyWeight st) (aw_bodyWeight aw)) "" in
  let finalNotes := orStr (orStr (workoutNotes st) (aw_notes aw)) "" in
  exs ← mapM finishExercise (aw_exercises aw);
  mret {| log_fields :=
            {| templateId := templateId aw;
               aw_name := aw_name aw;
               startTime := startTime aw;
               aw_bodyWeight := finalBodyWeight;
               aw_notes := finalNotes;
               aw_exercises := exs;
               isCompleted := true |};
          endTime := serverTimestamp |}.

(** The state after the statements that follow a successful [addDoc]. *)
Definition finishedState (st : AppState) : AppState :=
  {| db := db st;
     userId := userId st;
     activeWorkout := None;
     currentScreen := ScreenHome;
     timer := stopTimer (timer st);
     bodyWeight := "";
     showBodyWeightInput := false;
     workoutNotes := "" |}.

Definition failedToSave : string := "Failed to save workout log.".

(** [handleFinishWorkout]. [addDoc] tells whether the store accepts the
    document (the awaited promise resolves) or rejects it. *)
Definition handleFinishWorkout (addDoc : WorkoutLog → bool) (st : AppState)
  : Result (AppState * list Effect) :=
  match db st, userId st, activeWorkout st with
  | Some _, Some uid, Some aw =>
      if truthyStr uid then
        workoutLog ← buildWorkoutLog st aw;
        if addDoc workoutLog
        then mret (finishedState st, [AddDoc workoutLog])
        else mret (st, [AddDoc workoutLog;
                        ConsoleError "Error finishing workout:";
                        Alert failedToSave])
      else mret (st, [])
  | _, _, _ => mret (st, [])
  end.

(** The "End Workout (Discard)" button. *)
Definition discardWorkout (st : AppState) : AppState :=
  {| db := db st;
     userId := userId st;
     activeWorkout := None;
     currentScreen := ScreenHome;
     timer := stopTimer (timer st);
     bodyWeight := bodyWeight st;
     showBodyWeightInput := showBodyWeightInput st;
     workoutNotes := workoutNotes st |}.

(** ** Vocabulary of the properties *)

Definition isCompletedEntry (s : Slot) : bool :=
  match s with
  | Entry e => completed e
  | _ => false
  end.

(** The entries of an array of sets that are completed, in order. *)
Definition completedSets (arr : list Slot) : list Slot :=
  filter (λ s, isCompletedEntry s = true) arr.

(** The app can reach the store: [db] and a non-empty [userId] are set. *)
Definition signedIn (st : AppState) : Prop :=
  is_Some (db st) ∧ ∃ uid, userId st = Some uid ∧ uid ≠ "".

(** ** Sample data of the scenarios *)

Definition bench : TemplateExercise :=
  {| ex_id := "b1"; ex_name := "Bench";
     targetSets := JNum 3; targetReps := JNum 10; targetWeight := JNum 135 |}.

Definition pushDay : WorkoutTemplate :=
  {| tpl_id := Some "t1"; tpl_name := "Push Day"; tpl_exercises := [bench] |}.

(** The app after sign-in, before any workout is started. *)
Definition idleState : AppState :=
  {| db := Some FirestoreDb;
     userId := Some "u1";
     activeWorkout := None;
     currentScreen := ScreenHome;
     timer := initialTimer;
     bodyWeight := "";
     showBodyWeightInput := false;
     workoutNotes := "" |}.

(** A second template and a session in progress, for the scenarios. *)
Definition squat : TemplateExercise :=
  {| ex_id := "s1"; ex_name := "Squat";
     targetSets := JStr "5"; targetReps := JStr "5"; targetWeight := JStr "225" |}.

Definition legDay : WorkoutTemplate :=
  {| tpl_id := Some "t2"; tpl_name := "Leg Day"; tpl_exercises := [squat] |}.

(** Push Day in progress: the first of the three sets is logged. *)
Definition benchSession : ActiveWorkout :=
  {| templateId := Some "t1";
     aw_name := "Push Day";
     startTime := jsonOfServerTimestamp;
     aw_bodyWeight := "";
     aw_notes := "";
     aw_exercises :=
       [{| template := bench;
           loggedSets :=
             [Entry {| reps := JStr "10"; weight := JStr "135"; completed := true |};
              Entry emptySet;
              Entry emptySet] |}];
     isCompleted := false |}.

Definition activeState : AppState :=
  {| db := Some FirestoreDb;
     userId := Some "u1";
     activeWorkout := Some benchSession;
     currentScreen := ScreenHome;
     timer := initialTimer;
     bodyWeight := "170";
     showBodyWeightInput := false;
     workoutNotes := "felt strong" |}.

(** ** Operations of the rest timer, for reachability *)

Inductive TimerOp :=
| OpStart (duration : option Z)
| OpPause
| OpResume
| OpStop
| OpTick.

Definition applyTimerOp (t : TimerState) (op : TimerOp) : TimerState :=
  match op with
  | OpStart d => startTimer d t
  | OpPause => pauseTimer t
  | OpResume => resumeTimer t
  | OpStop => stopTimer t
  | OpTick => tick t
  end.

Definition runTimer (ops : list TimerOp) : TimerState :=
  foldl applyTimerOp initialTimer ops.

(** A start with a duration of at least one second (the default is 180). *)
Definition positiveStart (op : TimerOp) : Prop :=
  match op with
  | OpStart (Some d) => 1 ≤ d
  | _ => True
  end.

(** ** Events of the interface *)

(** One event of the workout screens, from state [st] to state [st']. The
    set inputs and the "Log Set" button exist only for a set that is
    rendered, that is for a record of the session in progress. The other
    events are allowed whenever their handler succeeds, whichever screen
    is shown: the relation covers every run of the app, and more. *)
Inductive uiStep (st : AppState) : AppState → Prop :=
| step_start workoutTemplate st' :
    handleStartWorkout workoutTemplate st = Ok st' → uiStep st st'
| step_input aw ex set exIndex setIndex field value st' :
    activeWorkout st = Some aw →
    aw_exercises aw !! exIndex = Some ex →
    loggedSets ex !! setIndex = Some (Entry set) →
    handleSetInputChange exIndex setIndex field value st = Ok st' →
    uiStep st st'
| step_log aw ex set exIndex setIndex st' :
    activeWorkout st = Some aw →
    aw_exercises aw !! exIndex = Some ex →
    loggedSets ex !! setIndex = Some (Entry set) →
    logSetButtonShown set = true →
    logSetButton exIndex setIndex set st = Ok st' →
    uiStep st st'
| step_add exIndex st' :
    handleAddSetToExercise exIndex st = Ok st' → uiStep st st'
| step_finish addDoc st' effects :
    handleFinishWorkout addDoc st = Ok (st', effects) → uiStep st st'
| step_discard :
    uiStep st (discardWorkout st)
| step_timer op :
    uiStep st (withTimer st (applyTimerOp (timer st) op))
| step_bodyWeight value :
    uiStep st (withBodyWeight st value)
| step_hideBodyWeight :
    uiStep st (withShowBodyWeightInput st false)
| step_notes value :
    uiStep st (withWorkoutNotes st value)
| step_navigate screen :
    uiStep st (withCurrentScreen st screen).

(** Every position of every array of sets holds a record. *)
Definition isEntry (s : Slot) : Prop := ∃ e, s = Entry e.

Definition dense (aw : ActiveWorkout) : Prop :=
  Forall (λ ex, Forall isEntry (loggedSets ex)) (aw_exercises aw).

Definition denseState (st : AppState) : Prop :=
  match activeWorkout st with
  | Some aw => dense aw
  | None => True
  end.

(** ** The timer display *)

Inductive TimerButton := ButtonPause | ButtonResume | ButtonStop.

(** [TimerDisplay] renders nothing unless [timerActive]; otherwise it shows
    Resume when [timerPaused] and Pause when not, and Stop. *)
Definition timerDisplay (t : TimerState) : list TimerButton :=
  if timerActive t
  then [if timerPaused t then ButtonResume else ButtonPause; ButtonStop]
  else [].

Definition pressTimerButton (b : TimerButton) (t : TimerState) : TimerState :=
  match b with
  | ButtonPause => pauseTimer t
  | ButtonResume => resumeTimer t
  | ButtonStop => stopTimer t
  end.

(** What happens to the timer in the running app: a button of the display
    is pressed, a second elapses, a set is logged ([startTimer()]), or the
    workout is finished or discarded ([stopTimer()]). *)
Inductive timerUiStep (t : TimerState) : TimerState → Prop :=
| timer_press b : b ∈ timerDisplay t → timerUiStep t (pressTimerButton b t)
| timer_tick : timerUiStep t (tick t)
| timer_logged : timerUiStep t (startTimer None t)
| timer_ended : timerUiStep t (stopTimer t).

(** A start that does not ask for a negative duration. *)
Definition nonNegativeStart (op : TimerOp) : Prop :=
  match op with
  | OpStart (Some d) => 0 ≤ d
  | _ => True
  end.

(** ** Vocabulary of the further properties *)

(** The record at [exercises[ei].loggedSets[si]] of a session, if there is
    one. *)
Definition setAt (aw : ActiveWorkout) (ei si : nat) : option LoggedSet :=
  ex ← aw_exercises aw !! ei;
  match loggedSets ex !! si with
  | Some (Entry s) => Some s
  | _ => None
  end.

(** The session with that record changed by [g]. *)
Definition updateSet (g : LoggedSet → LoggedSet) (ei si : nat)
    (aw : ActiveWorkout) : option ActiveWorkout :=
  ex ← aw_exercises aw !! ei;
  match loggedSets ex !! si with
  | Some (Entry s) =>
      Some (withExercises aw
              (<[ei := withLoggedSets ex (<[si := Entry (g s)]> (loggedSets ex))]>
                 (aw_exercises aw)))
  | _ => None
  end.

(** The numbers of sets of the exercises of a session. *)
Definition setCounts (aw : ActiveWorkout) : list nat :=
  (λ ex, length (loggedSets ex)) <$> aw_exercises aw.

(** The set at [ei], [si] is a record that is marked completed. *)
Definition completedAt (aw : ActiveWorkout) (ei si : nat) : Prop :=
  ∃ s, setAt aw ei si = Some s ∧ completed s = true.

(** A successful call of one of the three handlers that change the sets of
    the session in progress, at any indices, the field being one of the
    two the inputs edit. This is more than the interface can do; it serves
    the frame properties of the handlers. *)
Inductive setLoggerCall (st : AppState) : AppState → Prop :=
| call_logSet ei si r w st' :
    handleLogSet ei si r w st = Ok st' → setLoggerCall st st'
| call_setInput ei si field value st' :
    handleSetInputChange ei si field value st = Ok st' → setLoggerCall st st'
| call_addSet ei st' :
    handleAddSetToExercise ei st = Ok st' → setLoggerCall st st'.

(** One event of the rows of sets on the workout screen: a change of the
    reps or weight input of a rendered set, a press of its "Log Set"
    button while it is shown, or a press of "Add Set" under an exercise. *)
Inductive setRowEvent (st : AppState) : AppState → Prop :=
| row_input aw ex set exIndex setIndex field value st' :
    activeWorkout st = Some aw →
    aw_exercises aw !! exIndex = Some ex →
    loggedSets ex !! setIndex = Some (Entry set) →
    handleSetInputChange exIndex setIndex field value st = Ok st' →
    setRowEvent st st'
| row_log aw ex set exIndex setIndex st' :
    activeWorkout st = Some aw →
    aw_exercises aw !! exIndex = Some ex →
    loggedSets ex !! setIndex = Some (Entry set) →
    logSetButtonShown set = true →
    logSetButton exIndex setIndex set st = Ok st' →
    setRowEvent st st'
| row_add exIndex st' :
    handleAddSetToExercise exIndex st = Ok st' → setRowEvent st st'.

(** ** Workout template management (App.js) *)

(** [s.trim()]: white space removed at both ends. *)
Definition trimEnd (s : string) : string :=
  String.rev (trimStart (String.rev s)).

Definition trim (s : string) : string := trimEnd (trimStart s).

(** Text of ASCII characters only. Among them [trim] removes exactly the
    six of [isWhiteSpace]; beyond them JavaScript knows further white
    space (the no-break space, U+3000, U+FEFF, ...), which is left out. *)
Definition isAsciiChar (c : ascii) : bool := (nat_of_ascii c <? 128)%nat.

Fixpoint asciiText (s : string) : bool :=
  match s with
  | String c s' => isAsciiChar c && asciiText s'
  | EmptyString => true
  end.

(** Every character of the text is white space (the empty text included). *)
Fixpoint allWhiteSpace (s : string) : bool :=
  match s with
  | String c s' => isWhiteSpace c && allWhiteSpace s'
  | EmptyString => true
  end.

(** The state hooks that template management reads or writes. *)
Record EditorState := {
  ed_db : option Firestore;
  ed_userId : option string;
  editingWorkout : option WorkoutTemplate;
  ed_currentScreen : Screen
}.

(** What saving a template does besides setting state. *)
Inductive SaveEffect :=
| SetDocMerge (id : string) (workout : WorkoutTemplate)
| AddTemplateDoc (workout : WorkoutTemplate)
| SaveConsoleError (msg : string)
| SaveAlert (msg : string).

(** The exercise a new template or "Add Exercise" starts with; [id] is the
    value that [generateId()] returned. *)
Definition newExercise (id : string) : TemplateExercise :=
  {| ex_id := id; ex_name := "";
     targetSets := JNum 3; targetReps := JNum 10; targetWeight := JStr "" |}.

Definition withEditing (ed : EditorState) (w : option WorkoutTemplate)
  : EditorState :=
  {| ed_db := ed_db ed;
     ed_userId := ed_userId ed;
     editingWorkout := w;
     ed_currentScreen := ed_currentScreen ed |}.

Definition withTemplateExercises (w : WorkoutTemplate)
    (exs : list TemplateExercise) : WorkoutTemplate :=
  {| tpl_id := tpl_id w; tpl_name := tpl_name w; tpl_exercises := exs |}.

Definition handleCreateNewWorkout (id : string) (ed : EditorState)
  : EditorState :=
  {| ed_db := ed_db ed;
     ed_userId := ed_userId ed;
     editingWorkout :=
       Some {| tpl_id := None; tpl_name := "";
               tpl_exercises := [newExercise id] |};
     ed_currentScreen := ScreenCreateWorkout |}.

(** [handleEditWorkoutTemplate]: the editor gets a JSON copy of the
    template, which for this plain data is an equal value of its own. *)
Definition handleEditWorkoutTemplate (workout : WorkoutTemplate)
    (ed : EditorState) : EditorState :=
  {| ed_db := ed_db ed;
     ed_userId := ed_userId ed;
     editingWorkout := Some workout;
     ed_currentScreen := ScreenCreateWorkout |}.

(** The fields of an exercise that the editor's inputs change. *)
Inductive ExerciseField :=
| FieldName
| FieldTargetSets
| FieldTargetReps
| FieldTargetWeight.

(** [exercise[field] = value], with the text of the input as value. *)
Definition setExerciseField (field : ExerciseField) (value : string)
    (ex : TemplateExercise) : TemplateExercise :=
  match field with
  | FieldName =>
      {| ex_id := ex_id ex; ex_name := value; targetSets := targetSets ex;
         targetReps := targetReps ex; targetWeight := targetWeight ex |}
  | FieldTargetSets =>
      {| ex_id := ex_id ex; ex_name := ex_name ex; targetSets := JStr value;
         targetReps := targetReps ex; targetWeight := targetWeight ex |}
  | FieldTargetReps =>
      {| ex_id := ex_id ex; ex_name := ex_name ex; targetSets := targetSets ex;
         targetReps := JStr value; targetWeight := targetWeight ex |}
  | FieldTargetWeight =>
      {| ex_id := ex_id ex; ex_name := ex_name ex; targetSets := targetSets ex;
         targetReps := targetReps ex; targetWeight := JStr value |}
  end.

(** [handleExerciseChange]: reading [exercises] of [null], or assigning a
    property of a missing exercise, is a TypeError. *)
Definition handleExerciseChange (workoutIndex : nat) (field : ExerciseField)
    (value : string) (ed : EditorState) : Result EditorState :=
  match editingWorkout ed with
  | None => Throw TypeError
  | Some prev =>
      match tpl_exercises prev !! workoutIndex with
      | None => Throw TypeError
      | Some ex =>
          Ok (withEditing ed
                (Some (withTemplateExercises prev
                   (<[workoutIndex := setExerciseField field value ex]>
                      (tpl_exercises prev)))))
      end
  end.

Definition addExerciseToTemplate (id : string) (ed : EditorState)
  : Result EditorState :=
  match editingWorkout ed with
  | None => Throw TypeError
  | Some prev =>
      Ok (withEditing ed
            (Some (withTemplateExercises prev
               (tpl_exercises prev ++ [newExercise id]))))
  end.

Definition removeExerciseFromTemplate (exerciseId : string) (ed : EditorState)
  : Result EditorState :=
  match editingWorkout ed with
  | None => Throw TypeError
  | Some prev =>
      Ok (withEditing ed
            (Some (withTemplateExercises prev
               (filter (λ ex, ex_id ex ≠ exerciseId) (tpl_exercises prev)))))
  end.

(** [ex.name.trim() !== '']. *)
Definition hasName (ex : TemplateExercise) : Prop := trim (ex_name ex) ≠ "".

Definition nameCannotBeEmpty : string := "Workout name cannot be empty.".
Definition failedToSaveWorkout : string :=
  "Failed to save workout. Please try again.".

(** The template that is written: [{ ...editingWorkout, exercises: ... }]. *)
Definition workoutToSave (editing : WorkoutTemplate) : WorkoutTemplate :=
  withTemplateExercises editing (filter hasName (tpl_exercises editing)).

(** The write of [handleSaveWorkoutTemplate]: [setDoc] with merge on the
    template's document when it has an id, [addDoc] otherwise. *)
Definition saveWrite (w : WorkoutTemplate) : SaveEffect :=
  match tpl_id w with
  | Some id => if truthyStr id then SetDocMerge id w else AddTemplateDoc w
  | None => AddTemplateDoc w
  end.

(** [handleSaveWorkoutTemplate]. [store] tells whether the write is
    accepted (the awaited promise resolves) or rejected. *)
Definition handleSaveWorkoutTemplate (store : WorkoutTemplate → bool)
    (ed : EditorState) : EditorState * list SaveEffect :=
  match ed_db ed, ed_userId ed, editingWorkout ed with
  | Some _, Some uid, Some editing =>
      if truthyStr uid && truthyStr (trim (tpl_name editing)) then
        let w := workoutToSave editing in
        if store w
        then ({| ed_db := ed_db ed;
                 ed_userId := ed_userId ed;
                 editingWorkout := None;
                 ed_currentScreen := ScreenHome |},
              [saveWrite w])
        else (ed, [saveWrite w;
                   SaveConsoleError "Error saving workout template:";
                   SaveAlert failedToSaveWorkout])
      else (ed, [SaveAlert nameCannotBeEmpty])
  | _, _, _ => (ed, [SaveAlert nameCannotBeEmpty])
  end.

(** The updater of the workout name input, [{ ...prev, name: value }], on
    the template being edited. *)
Definition setWorkoutName (value : string) (prev : WorkoutTemplate)
  : WorkoutTemplate :=
  {| tpl_id := tpl_id prev; tpl_name := value;
     tpl_exercises := tpl_exercises prev |}.

(** The editor opened on a new template by a signed-in user. *)
Definition newEditor : EditorState :=
  handleCreateNewWorkout "e1"
    {| ed_db := Some FirestoreDb; ed_userId := Some "u1";
       editingWorkout := None; ed_currentScreen := ScreenHome |}.

(** A draft named "Push Day" with a named and a blank exercise. *)
Definition draftEditor : EditorState :=
  withEditing newEditor
    (Some {| tpl_id := None; tpl_name := "Push Day";
             tpl_exercises :=
               [setExerciseField FieldName "Bench" (newExercise "e1");
                setExerciseField FieldName "  " (newExercise "e2")] |}).

(** ** The templates listener *)

(** What the templates listener makes of a stored document,
    [{ id: doc.id, ...doc.data() }]. The data is the object that
    [handleSaveWorkoutTemplate] wrote, which has an [id] field of its own
    ([null] for a template created in the app); spread after [id: doc.id],
    that field is the one the result keeps. *)
Definition templateOfDoc (docId : string) (data : WorkoutTemplate)
  : WorkoutTemplate :=
  {| tpl_id := tpl_id data;
     tpl_name := tpl_name data;
     tpl_exercises := tpl_exercises data |}.

(** One edit in the template editor: an exercise input, the workout name
    input, "Add Exercise" or the remove button of an exercise. *)
Inductive editorStep (ed : EditorState) : EditorState → Prop :=
| edit_exercise workoutIndex field value ed' :
    handleExerciseChange workoutIndex field value ed = Ok ed' →
    editorStep ed ed'
| edit_name value prev :
    editingWorkout ed = Some prev →
    editorStep ed (withEditing ed (Some (setWorkoutName value prev)))
| edit_add id ed' :
    addExerciseToTemplate id ed = Ok ed' → editorStep ed ed'
| edit_remove exerciseId ed' :
    removeExerciseFromTemplate exerciseId ed = Ok ed' → editorStep ed ed'.

(** ** The history listener *)

(** A workout log as the listener reads it, [{ id: doc.id, ...doc.data() }]:
    the document id, the name, and [startTime.toDate()] in milliseconds
    when the stored [startTime] is a timestamp ([None] when it has no
    [toDate]). *)
Record FetchedLog := {
  fl_id : string;
  fl_name : string;
  fl_startTime : option Z
}.

Global Instance FetchedLog_eq_dec : EqDecision FetchedLog.
Proof. solve_decision. Defined.

(** [log.startTime?.toDate?.() || 0], as a number. *)
Definition startOrZero (l : FetchedLog) : Z := default 0 (fl_startTime l).

(** The comparator of the history sort. *)
Definition byStartTimeDesc (a b : FetchedLog) : Z :=
  startOrZero b - startOrZero a.

(** [arr.sort(compare)] is a stable sort: of two elements the comparator
    does not order, the one that came first stays first. *)
Fixpoint insertSorted {A} (compare : A → A → Z) (x : A) (l : list A) : list A :=
  match l with
  | [] => [x]
  | y :: l' =>
      if compare x y <=? 0 then x :: l else y :: insertSorted compare x l'
  end.

Definition arraySort {A} (compare : A → A → Z) (l : list A) : list A :=
  foldr (insertSorted compare) [] l.

(** The list that [setWorkoutLogs] receives. *)
Definition sortLogs (fetchedLogs : list FetchedLog) : list FetchedLog :=
  arraySort byStartTimeDesc fetchedLogs.

(** The text has no colon. *)
Fixpoint noColon (s : string) : bool :=
  match s with
  | String c s' => negb (Ascii.eqb c ":") && noColon s'
  | EmptyString => true
  end.

(** * Properties *)

(** ** Rest timer *)

Lemma tick_running (t : TimerState) :
  timerActive t = true → timerPaused t = false → 1 ≤ timerSeconds t →
  tick t = {| timerActive := negb (timerSeconds t =? 1);
              timerPaused := false;
              timerSeconds := timerSeconds t - 1 |}.
Proof.
  intros Ha Hp Hs. unfold tick. rewrite Ha, Hp. simpl.
  destruct (Z.leb_spec (timerSeconds t) 1) as [Hle|Hgt].
  - assert (timerSeconds t = 1) as -> by lia. reflexivity.
  - destruct (Z.eqb_spec (timerSeconds t) 1); [lia|reflexivity].
Qed.

(** The last tick: with one second or less left the countdown ends at 0,
    whatever it was started with. *)
Lemma tick_running_last (t : TimerState) :
  timerActive t = true → timerPaused t = false → timerSeconds t ≤ 1 →
  tick t = {| timerActive := false; timerPaused := false; timerSeconds := 0 |}.
Proof.
  intros Ha Hp Hs. unfold tick. rewrite Ha, Hp. simpl.
  by destruct (Z.leb_spec (timerSeconds t) 1); [|lia].
Qed.

Lemma tick_not_running (t : TimerState) : timerActive t = false → tick t = t.
Proof. intros Ha. unfold tick. by rewrite Ha. Qed.

Lemma tick_paused (t : TimerState) : timerPaused t = true → tick t = t.
Proof. intros Hp. unfold tick. rewrite Hp. by rewrite andb_false_r. Qed.

Lemma ticks_S (n : nat) (t : TimerState) : ticks (S n) t = tick (ticks n t).
Proof. reflexivity. Qed.

Lemma ticks_fixpoint (n : nat) (t : TimerState) : tick t = t → ticks n t = t.
Proof.
  intros Hfix. induction n as [|n IH]; [done|].
  rewrite ticks_S, IH. exact Hfix.
Qed.

(** [n] ticks of a running countdown that still has [n] seconds left. *)
Lemma ticks_running (n : nat) (t : TimerState) :
  timerActive t = true → timerPaused t = false →
  1 ≤ timerSeconds t → Z.of_nat n ≤ timerSeconds t →
  ticks n t = {| timerActive := Z.of_nat n <? timerSeconds t;
                 timerPaused := false;
                 timerSeconds := timerSeconds t - Z.of_nat n |}.
Proof.
  intros Ha Hp Hpos. induction n as [|n IH]; intros Hn.
  - destruct t as [a p s]; simpl in *. subst.
    change (Z.of_nat 0) with 0.
    replace (0 <? s) with true by (symmetry; apply Z.ltb_lt; lia).
    unfold ticks; simpl. f_equal. lia.
  - rewrite ticks_S, IH by lia.
    rewrite tick_running; simpl; try lia.
    f_equal; [|lia].
    destruct (Z.eqb_spec (timerSeconds t - Z.of_nat n) 1);
      destruct (Z.ltb_spec (Z.of_nat (S n)) (timerSeconds t)); simpl; lia || done.
Qed.

(** While the timer runs, at least one second remains: the states with
    zero seconds are exactly the stopped ones the countdown ends in. *)
Lemma running_has_time_left (ops : list TimerOp) :
  Forall positiveStart ops →
  timerActive (runTimer ops) = true → 1 ≤ timerSeconds (runTimer ops).
Proof.
  unfold runTimer. induction ops as [|op ops IH] using rev_ind; [done|].
  rewrite Forall_app, Forall_singleton. intros [Hops Hop].
  rewrite foldl_app; simpl. specialize (IH Hops).
  destruct op as [[d|]| | | |]; simpl in *; try done; try lia.
  unfold tick.
  destruct (timerActive _) eqn:Ha; simpl; [|by rewrite Ha].
  destruct (timerPaused _) eqn:Hp; simpl; [by rewrite Ha|].
  destruct (Z.leb_spec (timerSeconds (foldl applyTimerOp initialTimer ops)) 1);
    simpl; [done|lia].
Qed.

(** C5. Each tick of a running, unpaused countdown takes exactly one second
    off [timerSeconds]; the tick that brings it to 0 switches [timerActive]
    off and leaves [timerSeconds] at 0, where it stays (a stopped timer
    ignores ticks, no reset to 180); a paused timer ignores ticks. A
    running timer always has a second left, whatever was done to it since
    the app started, as long as it is started with positive durations. So
    start(90) and 30 ticks leave 60, pause and 10 ticks leave 60, resume
    and 60 ticks leave 0 with the timer stopped. *)
Theorem restTimer_tick_law :
  (∀ t : TimerState,
      timerActive t = true → timerPaused t = false → 1 ≤ timerSeconds t →
      timerSeconds (tick t) = timerSeconds t - 1 ∧
      timerPaused (tick t) = false ∧
      timerActive (tick t) = negb (timerSeconds (tick t) =? 0)) ∧
  (∀ (t : TimerState) (n : nat), timerActive t = false → ticks n t = t) ∧
  (∀ (t : TimerState) (n : nat), timerPaused t = true → ticks n t = t) ∧
  (∀ ops : list TimerOp,
      Forall positiveStart ops → timerActive (runTimer ops) = true →
      1 ≤ timerSeconds (runTimer ops)) ∧
  (∀ t0 : TimerState,
      let t1 := ticks 30 (startTimer (Some 90) t0) in
      let t2 := ticks 10 (pauseTimer t1) in
      let t3 := ticks 60 (resumeTimer t2) in
      timerSeconds t1 = 60 ∧ timerActive t1 = true ∧
      timerSeconds t2 = 60 ∧
      timerSeconds t3 = 0 ∧ timerActive t3 = false).
Proof.
  repeat split.
  - rewrite tick_running by done. reflexivity.
  - rewrite tick_running by done. reflexivity.
  - rewrite tick_running by done. simpl.
    destruct (Z.eqb_spec (timerSeconds t) 1), (Z.eqb_spec (timerSeconds t - 1) 0);
      simpl; lia || done.
  - intros t n Ha. by apply ticks_fixpoint, tick_not_running.
  - intros t n Hp. by apply ticks_fixpoint, tick_paused.
  - apply running_has_time_left.
Qed.

Lemma restTimer_tick_law_witness :
  timerSeconds (tick (startTimer (Some 1) initialTimer)) = 1 - 1 ∧
  timerActive (tick (startTimer (Some 1) initialTimer)) = false ∧
  ticks 5 (tick (startTimer (Some 1) initialTimer))
  = tick (startTimer (Some 1) initialTimer).
Proof.
  pose proof restTimer_tick_law as (Hone & Hstop & _ & _ & _).
  destruct (Hone (startTimer (Some 1) initialTimer)) as (Hs & _ & Ha);
    [reflexivity | reflexivity | simpl; lia |].
  split; [exact Hs|]. split; [exact Ha|].
  apply Hstop. exact Ha.
Defined.

(** C8, as stated, fails: pausing a timer that is not running raises
    nothing and does change the state ([timerPaused] becomes true). *)
Lemma pause_not_running_changes_state :
  timerActive initialTimer = false ∧
  pauseTimer initialTimer
  = {| timerActive := false; timerPaused := true; timerSeconds := 180 |} ∧
  pauseTimer initialTimer ≠ initialTimer.
Proof. split; [reflexivity|]. split; [reflexivity|]. discriminate. Qed.

(** C8, amended. [pauseTimer] has no precondition: in every state it sets
    [timerPaused] and keeps [timerActive] and [timerSeconds]; from then on
    ticks leave the timer as it is, so a running countdown is frozen at its
    value. *)
Theorem pauseTimer_freezes (t : TimerState) :
  timerPaused (pauseTimer t) = true ∧
  timerActive (pauseTimer t) = timerActive t ∧
  timerSeconds (pauseTimer t) = timerSeconds t ∧
  ∀ n : nat, ticks n (pauseTimer t) = pauseTimer t.
Proof.
  repeat split. intros n. by apply ticks_fixpoint, tick_paused.
Qed.

(** ** Timer display *)

Lemma pad_two_digits (s : Z) :
  0 ≤ s < 60 → (if s <? 10 then "0" else "") +:+ pretty s = twoDigits s.
Proof.
  intros Hs.
  assert (∃ k : nat, (k < 60)%nat ∧ s = Z.of_nat k) as (k & Hk & ->).
  { exists (Z.to_nat s). lia. }
  clear Hs. do 60 (destruct k as [|k]; [vm_compute; reflexivity|]). lia.
Qed.

(** C9. For a non-negative whole number of seconds, [formatTime] writes
    the minutes, a colon, and the seconds ([totalSeconds mod 60]) with
    exactly two digits, zero-padded. *)
Theorem formatTime_pads_seconds (totalSeconds : Z) :
  0 ≤ totalSeconds →
  formatTime totalSeconds
  = pretty (totalSeconds `div` 60) +:+ ":" +:+ twoDigits (totalSeconds `mod` 60)
  ∧ String.length (twoDigits (totalSeconds `mod` 60)) = 2%nat.
Proof.
  intros Hpos. split; [|reflexivity].
  unfold formatTime. cbv zeta.
  rewrite Z.rem_mod_nonneg by lia.
  rewrite pad_two_digits; [reflexivity|].
  apply Z.mod_pos_bound. lia.
Qed.

Lemma formatTime_pads_seconds_witness : formatTime 180 = "3:00".
Proof.
  destruct (formatTime_pads_seconds 180) as [Hfmt _]; [lia|].
  rewrite Hfmt. vm_compute. reflexivity.
Defined.

(** ** [parseInt] reads back the numeral of an integer *)

Lemma is_nat_pretty_N_char (d : N) :
  (d < 10)%N → Ascii.is_nat (pretty_N_char d) = Some (N.to_nat d).
Proof.
  intros Hd.
  assert (∃ k : nat, (k < 10)%nat ∧ d = N.of_nat k) as (k & Hk & ->).
  { exists (N.to_nat d). lia. }
  clear Hd. do 10 (destruct k as [|k]; [reflexivity|]). lia.
Qed.

Lemma digitsFrom_pretty_N_go (x : N) (s : string) :
  digitsFrom 0 (pretty_N_go x s) = digitsFrom (Z.of_N x) s.
Proof.
  revert s. induction (N.lt_wf_0 x) as [x _ IH]. intros s.
  destruct (decide (x = 0%N)) as [->|Hx]; [by rewrite pretty_N_go_0|].
  rewrite pretty_N_go_step by lia.
  rewrite IH by (apply N.div_lt; lia). simpl.
  rewrite is_nat_pretty_N_char by (apply N.mod_lt; lia).
  f_equal. rewrite (N.div_mod x 10) at 3 by lia. lia.
Qed.

Lemma pretty_N_go_startsWithDigit (x : N) (s : string) :
  (0 < x)%N ∨ startsWithDigit s → startsWithDigit (pretty_N_go x s).
Proof.
  revert s. induction (N.lt_wf_0 x) as [x _ IH]. intros s Hxs.
  destruct (decide (x = 0%N)) as [->|Hx].
  - rewrite pretty_N_go_0. destruct Hxs as [?|?]; [lia|done].
  - rewrite pretty_N_go_step by lia. apply IH; [apply N.div_lt; lia|].
    right. simpl. rewrite is_nat_pretty_N_char by (apply N.mod_lt; lia). eauto.
Qed.

Lemma parseDigits_startsWithDigit (s : string) :
  startsWithDigit s → parseDigits s = Some (digitsFrom 0 s).
Proof.
  destruct s as [|c s]; [done|]. simpl. intros [d Hd]. by rewrite Hd.
Qed.

Lemma parseIntStr_startsWithDigit (s : string) :
  startsWithDigit s → parseIntStr s = Some (digitsFrom 0 s).
Proof.
  intros Hs. rewrite <-parseDigits_startsWithDigit by done.
  destruct s as [|c s]; [done|].
  destruct Hs as [d Hd]. unfold parseIntStr.
  destruct c as [[] [] [] [] [] [] [] []]; try discriminate Hd; reflexivity.
Qed.

Lemma parseIntStr_pretty_pos (p : positive) :
  parseIntStr (pretty (N.pos p)) = Some (Z.pos p).
Proof.
  unfold pretty, pretty_N. rewrite decide_False by done.
  rewrite parseIntStr_startsWithDigit
    by (apply pretty_N_go_startsWithDigit; left; lia).
  by rewrite digitsFrom_pretty_N_go.
Qed.

(** [parseInt(n, 10)] of an integer Number is the number. *)
Lemma parseInt_JNum (n : Z) : parseInt (JNum n) = Some n.
Proof.
  destruct n as [|p|p]; simpl.
  - reflexivity.
  - apply parseIntStr_pretty_pos.
  - unfold pretty, pretty_Z, pretty, pretty_positive, pretty, pretty_N.
    rewrite decide_False by done.
    unfold parseIntStr. simpl.
    rewrite parseDigits_startsWithDigit
      by (apply pretty_N_go_startsWithDigit; left; lia).
    change ("" +:+ pretty_N_go (N.pos p) "") with (pretty_N_go (N.pos p) "").
    by rewrite digitsFrom_pretty_N_go.
Qed.

(** The same holds for the text of the numeral, as typed in an input. *)
Lemma parseInt_JStr_pretty (n : Z) : parseInt (JStr (pretty n)) = Some n.
Proof. apply (parseInt_JNum n). Qed.

(** ** Starting a workout *)


Lemma mapM_Ok {A B} (f : A → Result B) (l : list A) (k : list B) :
  mapM f l = Ok k ↔ Forall2 (λ x y, f x = Ok y) l k.
Proof.
  revert k. induction l as [|x l IH]; intros k; simpl.
  - split.
    + intros [= <-]. constructor.
    + intros Hk. by inversion Hk.
  - split.
    + destruct (f x) as [y|e] eqn:Hx; [|done]. simpl.
      destruct (mapM f l) as [k'|e] eqn:Hl; [|done]. simpl.
      intros [= <-]. constructor; [done|]. by apply IH.
    + intros Hk. inversion Hk as [|? y ? k' Hx Hl]; subst.
      rewrite Hx. simpl. apply IH in Hl. rewrite Hl. reflexivity.
Qed.

Lemma mapM_Throw {A B} (f : A → Result B) (l : list A) (x : A) (e : JsError) :
  f x = Throw e → mapM f (x :: l) = Throw e.
Proof. intros Hx. simpl. by rewrite Hx. Qed.

Lemma seed_replicate (n : nat) :
  arrayMap (λ _, Entry emptySet) (fill Null (replicate n Hole))
  = replicate n (Entry emptySet).
Proof. unfold arrayMap, fill. by rewrite !fmap_replicate. Qed.

Lemma seedLoggedSets_positive (ex : TemplateExercise) (n : Z) :
  parseInt (targetSets ex) = Some n → 1 ≤ n ≤ maxArrayLength →
  seedLoggedSets ex = Ok (replicate (Z.to_nat n) (Entry emptySet)).
Proof.
  intros Hparse [Hlo Hhi]. unfold seedLoggedSets, newArray. rewrite Hparse.
  assert (orOne (Some n) = n) as -> by (destruct n; done || lia).
  replace ((0 <=? n) && (n <=? maxArrayLength)) with true
    by (symmetry; apply andb_true_iff; split; apply Z.leb_le; lia).
  simpl. by rewrite seed_replicate.
Qed.

(** The fallback of [|| 1]: a target that parses to NaN or to 0 seeds one
    placeholder. *)
Lemma seedLoggedSets_fallback (ex : TemplateExercise) :
  parseInt (targetSets ex) = None ∨ parseInt (targetSets ex) = Some 0 →
  seedLoggedSets ex = Ok [Entry emptySet].
Proof. unfold seedLoggedSets. by intros [-> | ->]. Qed.

(** A target that parses to a negative number, or to one above the largest
    array length, makes [Array(...)] throw. *)
Lemma seedLoggedSets_out_of_range (ex : TemplateExercise) (n : Z) :
  parseInt (targetSets ex) = Some n → n < 0 ∨ maxArrayLength < n →
  seedLoggedSets ex = Throw RangeError.
Proof.
  intros Hparse Hn. unfold seedLoggedSets, newArray. rewrite Hparse.
  assert (orOne (Some n) = n) as ->.
  { destruct n; try done. unfold maxArrayLength in Hn. lia. }
  replace ((0 <=? n) && (n <=? maxArrayLength)) with false; [done|].
  symmetry. apply andb_false_iff.
  destruct Hn; [left|right]; apply Z.leb_gt; lia.
Qed.

Lemma handleStartWorkout_Ok (workoutTemplate : WorkoutTemplate)
    (st : AppState) (aw : ActiveWorkout) :
  newActiveWorkout workoutTemplate = Ok aw →
  handleStartWorkout workoutTemplate st
  = Ok {| db := db st;
          userId := userId st;
          activeWorkout := Some aw;
          currentScreen := ScreenActiveWorkout;
          timer := timer st;
          bodyWeight := "";
          showBodyWeightInput := true;
          workoutNotes := "" |}.
Proof. intros Haw. unfold handleStartWorkout. by rewrite Haw. Qed.




(** C10. The fallback [|| 1] covers a [targetSets] that parses to NaN or
    to 0, but not one that parses to a negative integer: the text "-3"
    is not a positive integer either, and [Array(-3)] throws a RangeError
    instead of seeding one placeholder, so no session is started. *)
Theorem start_throws_on_negative_targetSets :
  let ex := {| ex_id := "b1"; ex_name := "Bench"; targetSets := JStr "-3";
               targetReps := JNum 10; targetWeight := JNum 135 |} in
  let tpl := {| tpl_id := Some "t1"; tpl_name := "Push Day";
                tpl_exercises := [ex] |} in
  parseInt (targetSets ex) = Some (-3) ∧
  seedLoggedSets ex = Throw RangeError ∧
  handleStartWorkout tpl idleState = Throw RangeError ∧
  commit idleState (handleStartWorkout tpl idleState) = idleState.
Proof. repeat split; vm_compute; reflexivity. Qed.

(** The targets of C10's examples do fall back to one placeholder. *)
Lemma seedLoggedSets_fallback_examples :
  ∀ v, v ∈ [JNum 0; JStr "0"; JStr ""; JStr "abc"; JStr "-0"] →
  seedLoggedSets {| ex_id := "b1"; ex_name := "Bench"; targetSets := v;
                    targetReps := JNum 10; targetWeight := JNum 135 |}
  = Ok [Entry emptySet].
Proof.
  intros v Hv. apply seedLoggedSets_fallback. simpl.
  repeat (apply elem_of_cons in Hv as [->|Hv]; [vm_compute; auto|]).
  by apply elem_of_nil in Hv.
Qed.

(** [activeState] is what the handlers produce from [idleState]. *)
Lemma activeState_reachable :
  ∃ st1 st2 st3 st4,
    handleStartWorkout pushDay idleState = Ok st1 ∧
    handleSetInputChange 0 0 FieldReps (JStr "10") st1 = Ok st2 ∧
    handleSetInputChange 0 0 FieldWeight (JStr "135") st2 = Ok st3 ∧
    handleLogSet 0 0 (JStr "10") (JStr "135") st3 = Ok st4 ∧
    activeWorkout st4 = Some benchSession.
Proof. by eexists _, _, _, _. Qed.

(** C1, as stated, fails: with Push Day in progress, starting Leg Day
    raises nothing and the session in progress is replaced. *)
Lemma start_while_active_replaces_session :
  ∃ st',
    activeWorkout activeState = Some benchSession ∧
    handleStartWorkout legDay activeState = Ok st' ∧
    activeWorkout st' ≠ Some benchSession.
Proof. eexists. split; [reflexivity|]. split; [reflexivity|]. discriminate. Qed.

(** C1, amended. [handleStartWorkout] does not look at the session state:
    whenever the template's session can be built, the call succeeds, also
    with a session in progress, and the one [activeWorkout] slot then holds
    the new session (the earlier one, if any, is dropped and has no
    influence on the outcome); the leftover body weight and notes inputs
    are cleared. *)
Theorem start_replaces_any_session (workoutTemplate : WorkoutTemplate)
    (st : AppState) (aw : ActiveWorkout) :
  newActiveWorkout workoutTemplate = Ok aw →
  ∃ st',
    handleStartWorkout workoutTemplate st = Ok st' ∧
    activeWorkout st' = Some aw ∧
    currentScreen st' = ScreenActiveWorkout ∧
    bodyWeight st' = "" ∧ workoutNotes st' = "" ∧
    timer st' = timer st ∧
    ∀ prev : option ActiveWorkout,
      handleStartWorkout workoutTemplate (withActiveWorkout st prev) = Ok st'.
Proof.
  intros Haw. eexists. split; [by apply handleStartWorkout_Ok|].
  repeat split. intros prev.
  by rewrite (handleStartWorkout_Ok workoutTemplate _ aw).
Qed.

Lemma start_replaces_any_session_witness :
  ∃ aw st',
    newActiveWorkout legDay = Ok aw ∧
    handleStartWorkout legDay activeState = Ok st' ∧
    activeWorkout st' = Some aw ∧ aw_name aw = "Leg Day".
Proof.
  eexists.
  destruct (start_replaces_any_session legDay activeState _ eq_refl)
    as (st' & Hstart & Haw & _).
  exists st'. split; [reflexivity|]. split; [exact Hstart|].
  split; [exact Haw|reflexivity].
Defined.

(** ** Logging and editing sets *)

Lemma arraySet_in_range (arr : list Slot) (i : nat) (v : Slot) :
  (i < length arr)%nat → arraySet arr i v = <[i := v]> arr.
Proof. intros Hi. unfold arraySet. by rewrite decide_True. Qed.

Lemma arraySet_past_end (arr : list Slot) (i : nat) (v : Slot) :
  (length arr ≤ i)%nat → Z.of_nat i < maxArrayLength →
  arraySet arr i v = arr ++ replicate (i - length arr) Hole ++ [v].
Proof.
  intros Hi Hmax. unfold arraySet. rewrite decide_False by lia.
  by replace (Z.of_nat i <? maxArrayLength) with true
    by (symmetry; by apply Z.ltb_lt).
Qed.

(** [handleLogSet] on a set that exists: the state it commits. *)
Lemma handleLogSet_in_range (st : AppState) (aw : ActiveWorkout)
    (ex : SessionExercise) (exerciseIndex setIndex : nat) (r w : JsVal) :
  activeWorkout st = Some aw →
  aw_exercises aw !! exerciseIndex = Some ex →
  (setIndex < length (loggedSets ex))%nat →
  handleLogSet exerciseIndex setIndex r w st
  = Ok (withTimer
          (withActiveWorkout st
             (Some (withExercises aw
                (<[exerciseIndex :=
                     withLoggedSets ex
                       (<[setIndex := Entry {| reps := r; weight := w;
                                               completed := true |}]>
                          (loggedSets ex))]>
                   (aw_exercises aw)))))
          (startTimer None (timer st))).
Proof.
  intros Haw Hex Hsi. unfold handleLogSet, logSetUpdater.
  rewrite Haw, Hex. simpl. by rewrite arraySet_in_range.
Qed.

(** C6. Logging the set at in-range indices marks it completed and keeps
    the [reps] and [weight] of the record; the other sets, the other
    exercises and the exercise's targets are untouched; and the rest
    timer is (re)started at the default 180 seconds. On the Push Day
    session with 10 reps and 135 of weight entered in the first set, the
    first set becomes [{ reps: 10, weight: 135, completed: true }] and the
    timer runs from 180. *)
Theorem logSet_completes_set_and_starts_timer :
  (∀ (st : AppState) (aw : ActiveWorkout) (ex : SessionExercise)
     (set : LoggedSet) (exerciseIndex setIndex : nat),
      activeWorkout st = Some aw →
      aw_exercises aw !! exerciseIndex = Some ex →
      loggedSets ex !! setIndex = Some (Entry set) →
      ∃ st' aw' ex',
        logSetButton exerciseIndex setIndex set st = Ok st' ∧
        activeWorkout st' = Some aw' ∧
        aw_exercises aw' !! exerciseIndex = Some ex' ∧
        loggedSets ex' !! setIndex
          = Some (Entry {| reps := reps set; weight := weight set;
                           completed := true |}) ∧
        (∀ j, j ≠ setIndex → loggedSets ex' !! j = loggedSets ex !! j) ∧
        length (loggedSets ex') = length (loggedSets ex) ∧
        template ex' = template ex ∧
        (∀ k, k ≠ exerciseIndex →
              aw_exercises aw' !! k = aw_exercises aw !! k) ∧
        length (aw_exercises aw') = length (aw_exercises aw) ∧
        timer st' = startTimer (Some 180) (timer st) ∧
        timer st' = {| timerActive := true; timerPaused := false;
                       timerSeconds := 180 |}) ∧
  (∀ r w : JsVal,
      ∃ st1 st2 st3 st4 aw4,
        handleStartWorkout pushDay idleState = Ok st1 ∧
        handleSetInputChange 0 0 FieldReps r st1 = Ok st2 ∧
        handleSetInputChange 0 0 FieldWeight w st2 = Ok st3 ∧
        logSetButton 0 0 {| reps := r; weight := w; completed := false |} st3
          = Ok st4 ∧
        activeWorkout st4 = Some aw4 ∧
        loggedSets <$> aw_exercises aw4
          = [[Entry {| reps := r; weight := w; completed := true |};
              Entry emptySet; Entry emptySet]] ∧
        timer st4 = startTimer (Some 180) initialTimer).
Proof.
  split.
  - intros st aw ex set ei si Haw Hex Hset.
    pose proof (lookup_lt_Some _ _ _ Hset) as Hsi.
    pose proof (lookup_lt_Some _ _ _ Hex) as Hei.
    eexists _, _, _. split.
    { unfold logSetButton. by apply handleLogSet_in_range. }
    split; [reflexivity|]. simpl.
    split; [by apply list_lookup_insert_eq|]. simpl.
    split; [by apply list_lookup_insert_eq|].
    split; [by intros j Hj; apply list_lookup_insert_ne|].
    split; [by apply length_insert|].
    split; [reflexivity|].
    split; [by intros k Hk; apply list_lookup_insert_ne|].
    split; [by apply length_insert|].
    split; reflexivity.
  - intros r w. by eexists _, _, _, _, _.
Qed.

Lemma logSet_completes_set_and_starts_timer_witness :
  ∃ st' aw' ex',
    logSetButton 0 1 emptySet activeState = Ok st' ∧
    activeWorkout st' = Some aw' ∧
    aw_exercises aw' !! 0%nat = Some ex' ∧
    loggedSets ex' !! 1%nat
      = Some (Entry {| reps := JStr ""; weight := JStr ""; completed := true |}) ∧
    timerSeconds (timer st') = 180.
Proof.
  destruct logSet_completes_set_and_starts_timer as [Hlaw _].
  destruct (Hlaw activeState benchSession
              {| template := bench; loggedSets := _ |} emptySet 0%nat 1%nat
              eq_refl eq_refl eq_refl)
    as (st' & aw' & ex' & Hlog & Haw & Hex & Hset & _ & _ & _ & _ & _ & _ & Ht).
  exists st', aw', ex'. rewrite Ht. auto.
Defined.

Lemma handleSetInputChange_no_exercise (st : AppState) (aw : ActiveWorkout)
    (exerciseIndex setIndex : nat) (field : SetField) (value : JsVal) :
  activeWorkout st = Some aw →
  aw_exercises aw !! exerciseIndex = None →
  handleSetInputChange exerciseIndex setIndex field value st = Throw TypeError.
Proof.
  intros Haw Hex. unfold handleSetInputChange, setInputUpdater.
  rewrite Haw. simpl. by rewrite list_lookup_fmap, Hex.
Qed.

Lemma handleSetInputChange_no_set (st : AppState) (aw : ActiveWorkout)
    (ex : SessionExercise) (exerciseIndex setIndex : nat) (field : SetField)
    (value : JsVal) :
  activeWorkout st = Some aw →
  aw_exercises aw !! exerciseIndex = Some ex →
  (length (loggedSets ex) ≤ setIndex)%nat →
  handleSetInputChange exerciseIndex setIndex field value st = Throw TypeError.
Proof.
  intros Haw Hex Hsi. unfold handleSetInputChange, setInputUpdater.
  rewrite Haw. simpl. rewrite list_lookup_fmap, Hex. simpl.
  rewrite list_lookup_fmap. by rewrite (lookup_ge_None_2 _ _ Hsi).
Qed.

Lemma handleLogSet_no_exercise (st : AppState) (aw : ActiveWorkout)
    (exerciseIndex setIndex : nat) (r w : JsVal) :
  activeWorkout st = Some aw →
  aw_exercises aw !! exerciseIndex = None →
  handleLogSet exerciseIndex setIndex r w st = Throw TypeError.
Proof.
  intros Haw Hex. unfold handleLogSet, logSetUpdater. by rewrite Haw, Hex.
Qed.

Lemma handleLogSet_past_end (st : AppState) (aw : ActiveWorkout)
    (ex : SessionExercise) (exerciseIndex setIndex : nat) (r w : JsVal) :
  activeWorkout st = Some aw →
  aw_exercises aw !! exerciseIndex = Some ex →
  (length (loggedSets ex) ≤ setIndex)%nat →
  Z.of_nat setIndex < maxArrayLength →
  handleLogSet exerciseIndex setIndex r w st
  = Ok (withTimer
          (withActiveWorkout st
             (Some (withExercises aw
                (<[exerciseIndex :=
                     withLoggedSets ex
                       (loggedSets ex
                        ++ replicate (setIndex - length (loggedSets ex)) Hole
                        ++ [Entry {| reps := r; weight := w;
                                     completed := true |}])]>
                   (aw_exercises aw)))))
          (startTimer None (timer st))).
Proof.
  intros Haw Hex Hsi Hmax. unfold handleLogSet, logSetUpdater.
  rewrite Haw, Hex. simpl. by rewrite arraySet_past_end.
Qed.

(** C7, as stated, fails: on the Push Day session, whose exercise has three
    sets, logging at set index 3 raises nothing and changes the session
    (the array of sets grows to four). *)
Lemma logSet_past_end_changes_session :
  ∃ st' aw',
    activeWorkout activeState = Some benchSession ∧
    length <$> (loggedSets <$> aw_exercises benchSession) = [3%nat] ∧
    handleLogSet 0 3 (JStr "8") (JStr "135") activeState = Ok st' ∧
    activeWorkout st' = Some aw' ∧
    length <$> (loggedSets <$> aw_exercises aw') = [4%nat] ∧
    activeWorkout st' ≠ activeWorkout activeState.
Proof. eexists _, _. repeat split. discriminate. Qed.

(** C7, amended. With indices out of range for the session in progress
    (no exercise at [exerciseIndex], or no set at [setIndex]), no call
    returns an error to its caller and none leaves the session as it was:
    - [handleSetInputChange]: its state updater throws a TypeError; React
      raises it while rendering and the App is unmounted, the session
      with it;
    - [handleLogSet] with no exercise at [exerciseIndex]: the same;
    - [handleLogSet] on an existing exercise, with [setIndex] below
      4294967295: the updater does not fail; the completed set is stored
      at [setIndex], the array of sets growing up to it with holes in
      between, and the rest timer is started at 180. *)
Theorem set_logger_out_of_range (st : AppState) (aw : ActiveWorkout)
    (exerciseIndex setIndex : nat) :
  activeWorkout st = Some aw →
  (∀ ex, aw_exercises aw !! exerciseIndex = Some ex →
         (length (loggedSets ex) ≤ setIndex)%nat) →
  (∀ field value,
      afterUpdater
        (handleSetInputChange exerciseIndex setIndex field value st)
      = Unmounted TypeError) ∧
  (aw_exercises aw !! exerciseIndex = None →
   ∀ r w,
      afterUpdater (handleLogSet exerciseIndex setIndex r w st)
      = Unmounted TypeError) ∧
  (∀ ex, aw_exercises aw !! exerciseIndex = Some ex →
         Z.of_nat setIndex < maxArrayLength →
   ∀ r w,
      ∃ st' aw' ex',
        handleLogSet exerciseIndex setIndex r w st = Ok st' ∧
        activeWorkout st' = Some aw' ∧
        aw_exercises aw' !! exerciseIndex = Some ex' ∧
        loggedSets ex'
          = loggedSets ex
            ++ replicate (setIndex - length (loggedSets ex)) Hole
            ++ [Entry {| reps := r; weight := w; completed := true |}] ∧
        length (loggedSets ex') = S setIndex ∧
        activeWorkout st' ≠ activeWorkout st ∧
        timer st' = startTimer (Some 180) (timer st)).
Proof.
  intros Haw Hrange.
  assert (∀ field value,
    handleSetInputChange exerciseIndex setIndex field value st = Throw TypeError)
    as Hinput.
  { intros field value.
    destruct (aw_exercises aw !! exerciseIndex) as [ex|] eqn:Hex.
    - eapply handleSetInputChange_no_set; eauto.
    - eapply handleSetInputChange_no_exercise; eauto. }
  split; [|split].
  - intros field value. by rewrite Hinput.
  - intros Hex r w. by rewrite (handleLogSet_no_exercise st aw).
  - intros ex Hex Hmax r w.
    pose proof (Hrange ex Hex) as Hsi.
    pose proof (lookup_lt_Some _ _ _ Hex) as Hei.
    eexists _, _, _. split; [by eapply handleLogSet_past_end|].
    split; [reflexivity|]. simpl.
    split; [by apply list_lookup_insert_eq|]. simpl.
    split; [reflexivity|].
    split; [rewrite !length_app, length_replicate; simpl; lia|].
    split; [|reflexivity].
    rewrite Haw. intros [= Heq].
    apply (f_equal (λ a, length <$> (loggedSets <$> aw_exercises a !! exerciseIndex)))
      in Heq.
    simpl in Heq. rewrite list_lookup_insert_eq in Heq by done.
    rewrite Hex in Heq. simpl in Heq. injection Heq as Heq.
    rewrite !length_app, length_replicate in Heq. simpl in Heq. lia.
Qed.

Lemma set_logger_out_of_range_witness :
  afterUpdater (handleSetInputChange 0 3 FieldReps (JStr "8") activeState)
  = Unmounted TypeError ∧
  afterUpdater (handleSetInputChange 1 0 FieldReps (JStr "8") activeState)
  = Unmounted TypeError ∧
  afterUpdater (handleLogSet 1 0 (JStr "8") (JStr "135") activeState)
  = Unmounted TypeError ∧
  ∃ st', handleLogSet 0 4 (JStr "8") (JStr "135") activeState = Ok st' ∧
         (λ aw', loggedSets <$> aw_exercises aw') <$> activeWorkout st'
         = Some [[Entry {| reps := JStr "10"; weight := JStr "135";
                           completed := true |};
                  Entry emptySet; Entry emptySet; Hole;
                  Entry {| reps := JStr "8"; weight := JStr "135";
                           completed := true |}]].
Proof.
  destruct (set_logger_out_of_range activeState benchSession 0 3 eq_refl)
    as (Hinput & _ & _).
  { intros ex [= <-]. simpl. lia. }
  destruct (set_logger_out_of_range activeState benchSession 1 0 eq_refl)
    as (Hinput' & Hlog & _).
  { intros ex [=]. }
  destruct (set_logger_out_of_range activeState benchSession 0 4 eq_refl)
    as (_ & _ & Hgrow).
  { intros ex [= <-]. simpl. lia. }
  split; [apply Hinput|]. split; [apply Hinput'|].
  split; [by apply Hlog|].
  destruct (Hgrow _ eq_refl eq_refl (JStr "8") (JStr "135"))
    as (st' & aw' & ex' & Hst' & _).
  exists st'. split; [exact Hst'|].
  vm_compute in Hst'. injection Hst' as <-. reflexivity.
Defined.

(** ** Finishing a workout *)

Lemma filterCompleted_Ok (arr : list Slot) :
  Null ∉ arr → filterCompleted arr = Ok (completedSets arr).
Proof.
  unfold completedSets. induction arr as [|s arr IH]; [done|].
  intros Hnull. apply not_elem_of_cons in Hnull as [Hs Harr].
  destruct s as [| |e]; simpl.
  - rewrite IH by done. by rewrite filter_cons_False by done.
  - done.
  - rewrite IH by done. simpl. destruct (completed e) eqn:He.
    + by rewrite filter_cons_True by done.
    + rewrite filter_cons_False; [done|]. simpl. by rewrite He.
Qed.

Lemma filterCompleted_Null (arr : list Slot) :
  Null ∈ arr → filterCompleted arr = Throw TypeError.
Proof.
  induction arr as [|s arr IH]; intros Hnull; [by apply elem_of_nil in Hnull|].
  destruct s as [| |e]; simpl; [|done|].
  - apply IH. by apply elem_of_cons in Hnull as [?|?].
  - rewrite IH; [done|]. by apply elem_of_cons in Hnull as [?|?].
Qed.

Lemma completedSets_all_completed (arr : list Slot) (s : Slot) :
  s ∈ completedSets arr → ∃ e, s = Entry e ∧ completed e = true.
Proof.
  unfold completedSets. intros Hs. apply list_elem_of_filter in Hs as [Hc _].
  destruct s as [| |e]; try discriminate Hc. by exists e.
Qed.

Lemma buildWorkoutLog_Ok (st : AppState) (aw : ActiveWorkout) :
  Forall (λ ex, Null ∉ loggedSets ex) (aw_exercises aw) →
  ∃ log,
    buildWorkoutLog st aw = Ok log ∧
    aw_exercises (log_fields log)
    = (λ ex, withLoggedSets ex (completedSets (loggedSets ex)))
      <$> aw_exercises aw.
Proof.
  intros Hnull. eexists. unfold buildWorkoutLog.
  assert (mapM finishExercise (aw_exercises aw)
          = Ok ((λ ex, withLoggedSets ex (completedSets (loggedSets ex)))
                <$> aw_exercises aw)) as ->.
  { apply mapM_Ok, Forall2_fmap_r, Forall_Forall2_diag.
    eapply Forall_impl; [exact Hnull|]. intros ex Hex. unfold compose.
    unfold finishExercise. by rewrite filterCompleted_Ok. }
  split; reflexivity.
Qed.

Lemma handleFinishWorkout_signedIn (addDoc : WorkoutLog → bool)
    (st : AppState) (aw : ActiveWorkout) (log : WorkoutLog) :
  signedIn st → activeWorkout st = Some aw →
  buildWorkoutLog st aw = Ok log →
  handleFinishWorkout addDoc st
  = Ok (if addDoc log
        then (finishedState st, [AddDoc log])
        else (st, [AddDoc log; ConsoleError "Error finishing workout:";
                   Alert failedToSave])).
Proof.
  intros [[fs Hdb] (uid & Huid & Hne)] Haw Hlog. unfold handleFinishWorkout.
  rewrite Hdb, Huid, Haw.
  assert (truthyStr uid = true) as ->.
  { unfold truthyStr. by destruct (String.eqb_spec uid ""). }
  rewrite Hlog. simpl. by destruct (addDoc log).
Qed.

(** C2. Finishing a session in progress hands [addDoc] a log that has the
    session's exercises in order, each with exactly those of its
    [loggedSets] that are completed, in order; no set of the log is
    uncompleted. (It is built for every session whose arrays of sets hold
    no [null]; with a [null], reading its [completed] throws and no log is
    produced.) Finishing Push Day with one completed and two uncompleted
    sets, body weight 170 and notes "felt strong", logs one set. *)
Theorem finish_logs_completed_sets_only :
  (∀ (addDoc : WorkoutLog → bool) (st : AppState) (aw : ActiveWorkout),
      signedIn st → activeWorkout st = Some aw →
      Forall (λ ex, Null ∉ loggedSets ex) (aw_exercises aw) →
      ∃ log st' effects,
        handleFinishWorkout addDoc st = Ok (st', AddDoc log :: effects) ∧
        length (aw_exercises (log_fields log)) = length (aw_exercises aw) ∧
        (∀ (i : nat) ex,
            aw_exercises aw !! i = Some ex →
            ∃ ex', aw_exercises (log_fields log) !! i = Some ex' ∧
                   template ex' = template ex ∧
                   loggedSets ex' = completedSets (loggedSets ex) ∧
                   loggedSets ex' `sublist_of` loggedSets ex) ∧
        (∀ ex' s,
            ex' ∈ aw_exercises (log_fields log) → s ∈ loggedSets ex' →
            ∃ e, s = Entry e ∧ completed e = true)) ∧
  (∃ log,
      handleFinishWorkout (λ _, true) activeState
        = Ok (finishedState activeState, [AddDoc log]) ∧
      aw_bodyWeight (log_fields log) = "170" ∧
      aw_notes (log_fields log) = "felt strong" ∧
      (length ∘ loggedSets) <$> aw_exercises (log_fields log) = [1%nat]).
Proof.
  split.
  - intros addDoc st aw Hin Haw Hnull.
    destruct (buildWorkoutLog_Ok st aw Hnull) as (log & Hlog & Hexs).
    exists log, (if addDoc log then finishedState st else st),
      (if addDoc log then []
       else [ConsoleError "Error finishing workout:"; Alert failedToSave]).
    split.
    { rewrite (handleFinishWorkout_signedIn addDoc st aw log) by done.
      destruct (addDoc log); reflexivity. }
    rewrite Hexs. split; [by rewrite length_fmap|]. split.
    + intros i ex Hi. eexists. rewrite list_lookup_fmap, Hi.
      split; [reflexivity|]. split; [reflexivity|]. split; [reflexivity|].
      apply sublist_filter.
    + intros ex' s Hex' Hs.
      apply list_elem_of_fmap in Hex' as (ex & -> & _).
      simpl in Hs. by eapply completedSets_all_completed.
  - by eexists.
Qed.

Lemma finish_logs_completed_sets_only_witness :
  ∃ log st' effects,
    handleFinishWorkout (λ _, false) activeState
      = Ok (st', AddDoc log :: effects) ∧
    ∃ ex', aw_exercises (log_fields log) !! 0%nat = Some ex' ∧
           loggedSets ex'
           = [Entry {| reps := JStr "10"; weight := JStr "135";
                       completed := true |}].
Proof.
  destruct finish_logs_completed_sets_only as [Hlaw _].
  destruct (Hlaw (λ _, false) activeState benchSession)
    as (log & st' & effects & Hfin & _ & Hexs & _).
  { split; [by eexists|]. by exists "u1". }
  { reflexivity. }
  { repeat constructor. simpl. rewrite !elem_of_cons, elem_of_nil.
    intros [|[|[|[]]]]; discriminate. }
  exists log, st', effects. split; [exact Hfin|].
  destruct (Hexs 0%nat _ eq_refl) as (ex' & Hex' & _ & Hsets & _).
  exists ex'. split; [exact Hex'|]. rewrite Hsets. reflexivity.
Defined.

(** A session with a [null] among its sets: finishing throws, and nothing
    is committed or stored. *)
Lemma handleFinishWorkout_Null (addDoc : WorkoutLog → bool) (st : AppState)
    (aw : ActiveWorkout) :
  signedIn st → activeWorkout st = Some aw →
  Exists (λ ex, Null ∈ loggedSets ex) (aw_exercises aw) →
  handleFinishWorkout addDoc st = Throw TypeError.
Proof.
  intros [[fs Hdb] (uid & Huid & Hne)] Haw Hnull. unfold handleFinishWorkout.
  rewrite Hdb, Huid, Haw.
  assert (truthyStr uid = true) as ->.
  { unfold truthyStr. by destruct (String.eqb_spec uid ""). }
  unfold buildWorkoutLog.
  assert (mapM finishExercise (aw_exercises aw) = Throw TypeError) as ->; [|done].
  induction Hnull as [ex exs Hex|ex exs Hexs IH].
  - apply mapM_Throw. unfold finishExercise. by rewrite filterCompleted_Null.
  - simpl. destruct (finishExercise ex) as [ex'|e] eqn:Hfin; simpl.
    + by rewrite IH.
    + unfold finishExercise in Hfin.
      destruct (filterCompleted (loggedSets ex)) as [sets|e'] eqn:Hsets;
        [discriminate Hfin|].
      simpl in Hfin. injection Hfin as <-.
      clear -Hsets. induction (loggedSets ex) as [|[| |s] arr IHarr];
        simpl in Hsets; try discriminate Hsets; auto.
      * by injection Hsets as <-.
      * destruct (filterCompleted arr); [discriminate Hsets|].
        simpl in Hsets. injection Hsets as <-. by rewrite IHarr.
Qed.

(** C3, as stated, fails in its error half: when the store rejects the
    log of the Push Day session, nothing is raised to the caller of
    [handleFinishWorkout]. The handler catches the failure and completes
    normally, with the session as it was. *)
Lemma finish_failure_is_not_raised :
  signedIn activeState ∧
  activeWorkout activeState = Some benchSession ∧
  ∃ log effects,
    buildWorkoutLog activeState benchSession = Ok log ∧
    handleFinishWorkout (λ _, false) activeState
      = Ok (activeState, AddDoc log :: effects) ∧
    ∀ e, handleFinishWorkout (λ _, false) activeState ≠ Throw e.
Proof.
  split; [split; [by exists FirestoreDb|by exists "u1"]|].
  split; [reflexivity|].
  eexists _, _. split; [reflexivity|]. split; [reflexivity|].
  intros e. discriminate.
Qed.

(** C3, amended. When the store rejects the log, [handleFinishWorkout]
    commits nothing: the whole app state, and with it the session in
    progress and every field of it, is as before. The failure is not
    raised to the caller: the handler catches it, completes normally, and
    reports it by an error on the console and the alert
    "Failed to save workout log.". *)
Theorem finish_failure_keeps_session (addDoc : WorkoutLog → bool)
    (st : AppState) (aw : ActiveWorkout) (log : WorkoutLog) :
  signedIn st → activeWorkout st = Some aw →
  buildWorkoutLog st aw = Ok log →
  addDoc log = false →
  ∃ st',
    handleFinishWorkout addDoc st
      = Ok (st', [AddDoc log; ConsoleError "Error finishing workout:";
                  Alert failedToSave]) ∧
    st' = st ∧
    activeWorkout st' = Some aw.
Proof.
  intros Hin Haw Hlog Hfail. exists st.
  rewrite (handleFinishWorkout_signedIn addDoc st aw log) by done.
  by rewrite Hfail.
Qed.

Lemma finish_failure_keeps_session_witness :
  ∃ log,
    handleFinishWorkout (λ _, false) activeState
      = Ok (activeState, [AddDoc log; ConsoleError "Error finishing workout:";
                          Alert failedToSave]) ∧
    activeWorkout activeState = Some benchSession.
Proof.
  destruct (buildWorkoutLog activeState benchSession) as [log|e] eqn:Hlog;
    [|discriminate Hlog].
  exists log.
  destruct (finish_failure_keeps_session (λ _, false) activeState benchSession
              log) as (st' & Hfin & -> & Haw).
  - split; [by exists FirestoreDb|]. by exists "u1".
  - reflexivity.
  - exact Hlog.
  - reflexivity.
  - split; [exact Hfin|exact Haw].
Defined.

(** ** Sessions reachable through the interface *)

Lemma seedLoggedSets_dense (ex : TemplateExercise) (sets : list Slot) :
  seedLoggedSets ex = Ok sets → Forall isEntry sets.
Proof.
  unfold seedLoggedSets, newArray.
  destruct (_ && _); [|discriminate]. simpl. intros [= <-].
  rewrite seed_replicate. apply Forall_replicate. by eexists.
Qed.

Lemma newActiveWorkout_dense (workoutTemplate : WorkoutTemplate)
    (aw : ActiveWorkout) :
  newActiveWorkout workoutTemplate = Ok aw → dense aw.
Proof.
  unfold newActiveWorkout.
  destruct (mapM _ _) as [exs|e] eqn:Hexs; [|discriminate].
  simpl. intros [= <-]. unfold dense. simpl.
  apply mapM_Ok in Hexs.
  induction Hexs as [|x sx l exs Hx _ IH]; constructor; [|exact IH].
  unfold newSessionExercise in Hx.
  destruct (seedLoggedSets x) as [sets|e] eqn:Hsets; [|discriminate].
  simpl in Hx. injection Hx as <-. simpl. by eapply seedLoggedSets_dense.
Qed.

Lemma jsonCopy_dense (aw : ActiveWorkout) : dense aw → dense (jsonCopy aw).
Proof.
  unfold dense. simpl. intros Hd. apply Forall_fmap.
  eapply Forall_impl; [exact Hd|]. intros ex Hex. simpl.
  apply Forall_fmap. eapply Forall_impl; [exact Hex|].
  intros s [e ->]. by exists e.
Qed.

Lemma dense_insert (aw : ActiveWorkout) (i : nat) (ex : SessionExercise) :
  dense aw → Forall isEntry (loggedSets ex) →
  dense (withExercises aw (<[i := ex]> (aw_exercises aw))).
Proof. unfold dense. simpl. intros Hd Hex. by apply Forall_insert. Qed.

Lemma dense_lookup (aw : ActiveWorkout) (i : nat) (ex : SessionExercise) :
  dense aw → aw_exercises aw !! i = Some ex → Forall isEntry (loggedSets ex).
Proof. intros Hd Hex. by apply (Forall_lookup_1 _ _ _ _ Hd Hex). Qed.

(** [handleFinishWorkout] either leaves the state as it is or ends the
    session. *)
Lemma handleFinishWorkout_Ok_cases (addDoc : WorkoutLog → bool)
    (st st' : AppState) (effects : list Effect) :
  handleFinishWorkout addDoc st = Ok (st', effects) →
  st' = st ∨ st' = finishedState st.
Proof.
  unfold handleFinishWorkout. intros Hfin.
  destruct (db st), (userId st) as [uid|], (activeWorkout st) as [aw|];
    simpl in Hfin; try (injection Hfin as <- _; by left).
  destruct (truthyStr uid); [|injection Hfin as <- _; by left].
  destruct (buildWorkoutLog st aw) as [log|e]; [|discriminate].
  simpl in Hfin. destruct (addDoc log); injection Hfin as <- _; auto.
Qed.

(** The events keep the arrays of sets dense. *)
Lemma uiStep_dense (st st' : AppState) :
  uiStep st st' → denseState st → denseState st'.
Proof.
  intros Hstep Hd. unfold denseState in *.
  destruct Hstep as [tpl st' Hstart
                    |aw ex set ei si field value st' Haw Hex Hset Hin
                    |aw ex set ei si st' Haw Hex Hset Hshown Hlog
                    |ei st' Hadd
                    |addDoc st' effects Hfin
                    | |op|value| |value|screen]; try done.
  - unfold handleStartWorkout in Hstart.
    destruct (newActiveWorkout tpl) as [aw|e] eqn:Hnew; [|discriminate].
    simpl in Hstart. injection Hstart as <-. simpl.
    by eapply newActiveWorkout_dense.
  - unfold handleSetInputChange, setInputUpdater in Hin.
    rewrite Haw in Hin, Hd. simpl in Hin. apply jsonCopy_dense in Hd.
    change (jsonExercise <$> aw_exercises aw)
      with (aw_exercises (jsonCopy aw)) in Hin.
    destruct (aw_exercises (jsonCopy aw) !! ei) as [jex|] eqn:Hjex;
      [|discriminate].
    destruct (loggedSets jex !! si) as [[| |s]|]; try discriminate.
    injection Hin as <-. simpl. apply dense_insert; [done|]. simpl.
    apply Forall_insert; [by eapply dense_lookup|by eexists].
  - unfold logSetButton in Hlog.
    rewrite (handleLogSet_in_range st aw ex) in Hlog
      by (try done; by eapply lookup_lt_Some).
    injection Hlog as <-. simpl. rewrite Haw in Hd.
    apply dense_insert; [done|]. simpl.
    apply Forall_insert; [by eapply dense_lookup|by eexists].
  - unfold handleAddSetToExercise, addSetUpdater in Hadd.
    destruct (activeWorkout st) as [aw|]; [|discriminate].
    destruct (aw_exercises aw !! ei) as [ex|] eqn:Hex; [|discriminate].
    unfold push in Hadd. destruct (_ <? _); [|discriminate].
    simpl in Hadd. injection Hadd as <-. simpl.
    apply dense_insert; [done|]. simpl. apply Forall_app. split.
    + by eapply dense_lookup.
    + repeat constructor. by eexists.
  - by apply handleFinishWorkout_Ok_cases in Hfin as [->| ->].
Qed.

(** Every session reached from the start of the app has dense arrays of
    sets: no hole and no [null]. *)
Lemma reachable_dense (st : AppState) :
  rtc uiStep idleState st → denseState st.
Proof.
  revert st. apply rtc_ind_r.
  - done.
  - intros st st' _ Hstep IH. by eapply uiStep_dense.
Qed.

Lemma dense_no_Null (aw : ActiveWorkout) :
  dense aw → Forall (λ ex, Null ∉ loggedSets ex) (aw_exercises aw).
Proof.
  unfold dense. intros Hd. eapply Forall_impl; [exact Hd|].
  intros ex Hex Hnull.
  apply (proj1 (Forall_forall _ _) Hex) in Hnull as [e [=]].
Qed.

Lemma uiStep_signedIn (st st' : AppState) :
  uiStep st st' → db st' = db st ∧ userId st' = userId st.
Proof.
  intros [tpl st1 Hstart
         |aw ex set ei si field value st1 Haw Hex Hset Hin
         |aw ex set ei si st1 Haw Hex Hset Hshown Hlog
         |ei st1 Hadd
         |addDoc st1 effects Hfin
         | |op|value| |value|screen]; try done.
  - unfold handleStartWorkout in Hstart.
    destruct (newActiveWorkout tpl); [|discriminate].
    by injection Hstart as <-.
  - unfold handleSetInputChange in Hin.
    destruct (setInputUpdater _ _ _ _ _); [|discriminate].
    by injection Hin as <-.
  - unfold logSetButton, handleLogSet in Hlog.
    destruct (logSetUpdater _ _ _ _ _); [|discriminate].
    by injection Hlog as <-.
  - unfold handleAddSetToExercise in Hadd.
    destruct (addSetUpdater _ _); [|discriminate].
    by injection Hadd as <-.
  - by apply handleFinishWorkout_Ok_cases in Hfin as [->| ->].
Qed.

Lemma reachable_signedIn (st : AppState) :
  rtc uiStep idleState st → signedIn st.
Proof.
  revert st. apply rtc_ind_r.
  - split; [by eexists|]. by exists "u1".
  - intros st st' _ Hstep [Hdb Huid].
    apply uiStep_signedIn in Hstep as [Hdb' Huid'].
    unfold signedIn. by rewrite Hdb', Huid'.
Qed.

(** Whatever the user did since the app started, finishing the session in
    progress hands a log to the store, and its sets are the completed ones. *)
Lemma reachable_finish_hands_log (addDoc : WorkoutLog → bool) (st : AppState)
    (aw : ActiveWorkout) :
  rtc uiStep idleState st → activeWorkout st = Some aw →
  ∃ log st' effects,
    handleFinishWorkout addDoc st = Ok (st', AddDoc log :: effects) ∧
    aw_exercises (log_fields log)
    = (λ ex, withLoggedSets ex (completedSets (loggedSets ex)))
      <$> aw_exercises aw.
Proof.
  intros Hreach Haw.
  pose proof (reachable_signedIn st Hreach) as Hin.
  pose proof (reachable_dense st Hreach) as Hd.
  unfold denseState in Hd. rewrite Haw in Hd.
  destruct (buildWorkoutLog_Ok st aw (dense_no_Null aw Hd)) as (log & Hlog & Hexs).
  exists log, (if addDoc log then finishedState st else st),
    (if addDoc log then []
     else [ConsoleError "Error finishing workout:"; Alert failedToSave]).
  split; [|exact Hexs].
  rewrite (handleFinishWorkout_signedIn addDoc st aw log) by done.
  by destruct (addDoc log).
Qed.

(** * Further properties of the code *)

(** ** Rest timer *)

Lemma ticks_add (n m : nat) (t : TimerState) :
  ticks (n + m) t = ticks n (ticks m t).
Proof. unfold ticks. apply Nat.iter_add. Qed.

(** X1. A running, unpaused countdown with [s ≥ 1] seconds left shows
    [max 0 (s - n)] after [n] ticks, for every [n]; it is still running
    exactly when [n < s], and never gets paused by ticking. *)
Theorem ticks_countdown (n : nat) (t : TimerState) :
  timerActive t = true → timerPaused t = false → 1 ≤ timerSeconds t →
  ticks n t = {| timerActive := Z.of_nat n <? timerSeconds t;
                 timerPaused := false;
                 timerSeconds := Z.max 0 (timerSeconds t - Z.of_nat n) |}.
Proof.
  intros Ha Hp Hs.
  destruct (decide (Z.of_nat n ≤ timerSeconds t)) as [Hn|Hn].
  - rewrite ticks_running by done. f_equal. lia.
  - replace n with ((n - Z.to_nat (timerSeconds t)) + Z.to_nat (timerSeconds t))%nat
      at 1 by lia.
    rewrite ticks_add, (ticks_running (Z.to_nat (timerSeconds t))) by (done || lia).
    rewrite ticks_fixpoint.
    + f_equal; [|lia].
      rewrite Z2Nat.id by lia. rewrite Z.ltb_irrefl.
      symmetry. apply Z.ltb_ge. lia.
    + apply tick_not_running. simpl. rewrite Z2Nat.id by lia. apply Z.ltb_irrefl.
Qed.

Lemma ticks_countdown_witness :
  ticks 200 (startTimer None initialTimer)
  = {| timerActive := false; timerPaused := false; timerSeconds := 0 |}.
Proof.
  rewrite (ticks_countdown 200 (startTimer None initialTimer));
    [reflexivity | reflexivity | reflexivity | simpl; lia].
Defined.

(** X2. Pausing, waiting any number of seconds and resuming loses no time:
    an unpaused timer is back exactly in the state it was paused in. *)
Theorem pause_resume_loses_no_time (n : nat) (t : TimerState) :
  timerPaused t = false →
  resumeTimer (ticks n (pauseTimer t)) = t.
Proof.
  intros Hp. rewrite (ticks_fixpoint n (pauseTimer t)) by by apply tick_paused.
  destruct t as [a p s]. simpl in Hp. by subst.
Qed.

Lemma pause_resume_loses_no_time_witness :
  resumeTimer (ticks 45 (pauseTimer (ticks 30 (startTimer None initialTimer))))
  = ticks 30 (startTimer None initialTimer).
Proof.
  apply (pause_resume_loses_no_time 45 (ticks 30 (startTimer None initialTimer))).
  reflexivity.
Defined.

(** X3. Whatever sequence of start, pause, resume, stop and tick is applied
    to the initial timer, with no negative duration asked for, the seconds
    on the clock are never negative. *)
Theorem timerSeconds_never_negative (ops : list TimerOp) :
  Forall nonNegativeStart ops → 0 ≤ timerSeconds (runTimer ops).
Proof.
  unfold runTimer. induction ops as [|op ops IH] using rev_ind; [done|].
  rewrite Forall_app, Forall_singleton. intros [Hops Hop].
  rewrite foldl_app; simpl. specialize (IH Hops).
  destruct op as [[d|]| | | |]; simpl in *; try done.
  unfold tick. destruct (_ && _); [|done].
  destruct (Z.leb_spec (timerSeconds (foldl applyTimerOp initialTimer ops)) 1);
    simpl; lia.
Qed.

Lemma timerSeconds_never_negative_witness :
  0 ≤ timerSeconds (runTimer [OpStart (Some 0); OpTick; OpPause; OpTick;
                              OpResume; OpStart (Some 2); OpTick; OpTick; OpTick]).
Proof.
  apply timerSeconds_never_negative.
  repeat constructor; simpl; lia.
Defined.

(** The state of the timer in the running app. *)
Lemma timerUiStep_invariant (t t' : TimerState) :
  timerUiStep t t' →
  (0 ≤ timerSeconds t ≤ 180 ∧
   (timerActive t = true → 1 ≤ timerSeconds t) ∧
   (timerPaused t = true → timerActive t = true)) →
  (0 ≤ timerSeconds t' ≤ 180 ∧
   (timerActive t' = true → 1 ≤ timerSeconds t') ∧
   (timerPaused t' = true → timerActive t' = true)).
Proof.
  intros Hstep (Hs & Ha & Hp).
  destruct Hstep as [b Hb| | |]; [| |simpl; lia|simpl; split; [lia|done]].
  - unfold timerDisplay in Hb.
    destruct (timerActive t) eqn:Hact; [|by apply elem_of_nil in Hb].
    destruct b; simpl; rewrite ?Hact; (split; [lia|]); split; auto; done.
  - unfold tick.
    destruct (timerActive t) eqn:Hact, (timerPaused t) eqn:Hpau; simpl;
      rewrite ?Hact, ?Hpau; try (split; [lia|by auto]).
    destruct (Z.leb_spec (timerSeconds t) 1); simpl.
    + split; [lia|done].
    + specialize (Ha eq_refl). split; [lia|]. split; [lia|done].
Qed.

(** X4. In the running app, where the timer is started only by logging a
    set and paused or resumed only through the buttons the display shows,
    the clock always reads between 0 and 180 seconds, reads at least one
    second whenever the timer is active (the display is visible), and the
    timer is never paused while it is stopped. *)
Theorem timer_display_invariant (t : TimerState) :
  rtc timerUiStep initialTimer t →
  0 ≤ timerSeconds t ≤ 180 ∧
  (timerActive t = true → 1 ≤ timerSeconds t) ∧
  (timerPaused t = true → timerActive t = true).
Proof.
  revert t. apply rtc_ind_r.
  - simpl. split; [lia|done].
  - intros t t' _ Hstep IH. by eapply timerUiStep_invariant.
Qed.

Lemma timer_display_invariant_witness :
  1 ≤ timerSeconds (pressTimerButton ButtonPause (tick (startTimer None initialTimer))).
Proof.
  apply (timer_display_invariant
           (pressTimerButton ButtonPause (tick (startTimer None initialTimer)))).
  - eapply rtc_l; [apply timer_logged|].
    eapply rtc_l; [apply timer_tick|].
    eapply rtc_l; [|apply rtc_refl].
    apply (timer_press _ ButtonPause). simpl. apply elem_of_cons. by left.
  - reflexivity.
Defined.

(** ** Editing a set *)

Lemma jsonSlot_idem (s : Slot) : jsonSlot (jsonSlot s) = jsonSlot s.
Proof. by destruct s. Qed.

Lemma jsonExercise_idem (ex : SessionExercise) :
  jsonExercise (jsonExercise ex) = jsonExercise ex.
Proof.
  unfold jsonExercise. simpl. f_equal.
  rewrite <-list_fmap_compose. apply list_fmap_ext. intros _ s _. apply jsonSlot_idem.
Qed.

Lemma jsonCopy_idem (aw : ActiveWorkout) : jsonCopy (jsonCopy aw) = jsonCopy aw.
Proof.
  unfold jsonCopy. simpl. f_equal.
  - by destruct (startTime aw).
  - rewrite <-list_fmap_compose. apply list_fmap_ext.
    intros _ ex _. apply jsonExercise_idem.
Qed.

Lemma setInputUpdater_updateSet (ei si : nat) (field : SetField) (value : JsVal)
    (aw : ActiveWorkout) :
  setInputUpdater ei si field value (Some aw)
  = match updateSet (setField field value) ei si (jsonCopy aw) with
    | Some aw' => Ok aw'
    | None => Throw TypeError
    end.
Proof.
  unfold setInputUpdater, updateSet. simpl.
  destruct (_ !! ei) as [ex|]; simpl; [|done].
  by destruct (loggedSets ex !! si) as [[| |s]|].
Qed.

Lemma setAt_jsonCopy (aw : ActiveWorkout) (ei si : nat) :
  setAt (jsonCopy aw) ei si = setAt aw ei si.
Proof.
  unfold setAt. simpl. rewrite list_lookup_fmap.
  destruct (aw_exercises aw !! ei) as [ex|]; simpl; [|done].
  rewrite list_lookup_fmap. by destruct (loggedSets ex !! si) as [[| |s]|].
Qed.

Lemma setCounts_jsonCopy (aw : ActiveWorkout) :
  setCounts (jsonCopy aw) = setCounts aw.
Proof.
  unfold setCounts. simpl. rewrite <-list_fmap_compose.
  apply list_fmap_ext. intros _ ex _. simpl. apply length_fmap.
Qed.

Lemma updateSet_Some (g : LoggedSet → LoggedSet) (ei si : nat)
    (aw : ActiveWorkout) (s : LoggedSet) :
  setAt aw ei si = Some s →
  ∃ aw', updateSet g ei si aw = Some aw' ∧
         setAt aw' ei si = Some (g s) ∧
         (∀ i j, (i, j) ≠ (ei, si) → setAt aw' i j = setAt aw i j) ∧
         setCounts aw' = setCounts aw ∧
         template <$> aw_exercises aw' = template <$> aw_exercises aw ∧
         startTime aw' = startTime aw.
Proof.
  unfold setAt, updateSet. intros Hs.
  destruct (aw_exercises aw !! ei) as [ex|] eqn:Hex; simpl in *; [|done].
  destruct (loggedSets ex !! si) as [[| |s0]|] eqn:Hsi; try done.
  injection Hs as ->. eexists. split; [reflexivity|]. simpl.
  pose proof (lookup_lt_Some _ _ _ Hex) as Hei.
  pose proof (lookup_lt_Some _ _ _ Hsi) as Hlt.
  split; [|split; [|split; [|split]]].
  - rewrite list_lookup_insert_eq by done. simpl.
    by rewrite list_lookup_insert_eq.
  - intros i j Hij. destruct (decide (i = ei)) as [->|Hi].
    + rewrite list_lookup_insert_eq, Hex by done. simpl.
      rewrite list_lookup_insert_ne; [done|]. congruence.
    + by rewrite list_lookup_insert_ne.
  - unfold setCounts. simpl. rewrite list_fmap_insert. simpl.
    rewrite length_insert. apply list_insert_id.
    by rewrite list_lookup_fmap, Hex.
  - rewrite list_fmap_insert. simpl. apply list_insert_id.
    by rewrite list_lookup_fmap, Hex.
  - reflexivity.
Qed.

Lemma updateSet_ext (g h : LoggedSet → LoggedSet) (ei si : nat)
    (aw : ActiveWorkout) :
  (∀ s, g s = h s) → updateSet g ei si aw = updateSet h ei si aw.
Proof.
  intros Hgh. unfold updateSet.
  destruct (aw_exercises aw !! ei) as [ex|]; simpl; [|done].
  destruct (loggedSets ex !! si) as [[| |s]|]; try done. by rewrite Hgh.
Qed.

Lemma updateSet_updateSet (g h : LoggedSet → LoggedSet) (ei si : nat)
    (aw aw1 : ActiveWorkout) :
  updateSet g ei si aw = Some aw1 →
  updateSet h ei si aw1 = updateSet (h ∘ g) ei si aw.
Proof.
  unfold updateSet. intros Hg.
  destruct (aw_exercises aw !! ei) as [ex|] eqn:Hex; simpl in *; [|done].
  destruct (loggedSets ex !! si) as [[| |s]|] eqn:Hsi; try done.
  injection Hg as <-. simpl.
  pose proof (lookup_lt_Some _ _ _ Hex) as Hei.
  pose proof (lookup_lt_Some _ _ _ Hsi) as Hlt.
  rewrite list_lookup_insert_eq by done. simpl.
  rewrite list_lookup_insert_eq by done.
  unfold withExercises, withLoggedSets. simpl.
  by rewrite !list_insert_insert_eq.
Qed.

Lemma updateSet_jsonCopy (g : LoggedSet → LoggedSet) (ei si : nat)
    (aw : ActiveWorkout) :
  updateSet g ei si (jsonCopy aw) = jsonCopy <$> updateSet g ei si aw.
Proof.
  unfold updateSet. simpl. rewrite list_lookup_fmap.
  destruct (aw_exercises aw !! ei) as [ex|]; simpl; [|done].
  rewrite list_lookup_fmap.
  destruct (loggedSets ex !! si) as [[| |s]|]; simpl; try done.
  f_equal. unfold jsonCopy, withExercises. simpl. f_equal.
  rewrite list_fmap_insert. f_equal.
  unfold jsonExercise, withLoggedSets. simpl. f_equal.
  by rewrite list_fmap_insert.
Qed.

(** A session that went through the JSON copy is left alone by it. *)
Lemma updateSet_jsonCopy_clean (g : LoggedSet → LoggedSet) (ei si : nat)
    (aw aw1 : ActiveWorkout) :
  updateSet g ei si (jsonCopy aw) = Some aw1 → jsonCopy aw1 = aw1.
Proof.
  intros Hg. pose proof (updateSet_jsonCopy g ei si (jsonCopy aw)) as Hjson.
  rewrite jsonCopy_idem, Hg in Hjson. simpl in Hjson. congruence.
Qed.

Lemma handleSetInputChange_Ok_inv (ei si : nat) (field : SetField)
    (value : JsVal) (st st' : AppState) :
  handleSetInputChange ei si field value st = Ok st' →
  ∃ aw aw', activeWorkout st = Some aw ∧
            updateSet (setField field value) ei si (jsonCopy aw) = Some aw' ∧
            st' = withActiveWorkout st (Some aw').
Proof.
  unfold handleSetInputChange. intros Hin.
  destruct (activeWorkout st) as [aw|] eqn:Haw; [|discriminate Hin].
  rewrite setInputUpdater_updateSet in Hin.
  destruct (updateSet _ _ _ _) as [aw'|] eqn:Hup; [|discriminate Hin].
  simpl in Hin. injection Hin as <-. by exists aw, aw'.
Qed.

Lemma handleSetInputChange_Ok (ei si : nat) (field : SetField)
    (value : JsVal) (st : AppState) (aw aw' : ActiveWorkout) :
  activeWorkout st = Some aw →
  updateSet (setField field value) ei si (jsonCopy aw) = Some aw' →
  handleSetInputChange ei si field value st
  = Ok (withActiveWorkout st (Some aw')).
Proof.
  intros Haw Hup. unfold handleSetInputChange.
  by rewrite Haw, setInputUpdater_updateSet, Hup.
Qed.

(** X5. Typing [value] into the [field] input of an existing set changes
    that field of that set and nothing else: the other field and the
    [completed] flag of the set, every other set, the numbers of sets and
    the exercises' targets are as before, and the rest timer is not
    touched. *)
Theorem setInput_changes_one_field (st : AppState) (aw : ActiveWorkout)
    (s : LoggedSet) (ei si : nat) (field : SetField) (value : JsVal) :
  activeWorkout st = Some aw →
  setAt aw ei si = Some s →
  ∃ st' aw',
    handleSetInputChange ei si field value st = Ok st' ∧
    activeWorkout st' = Some aw' ∧
    setAt aw' ei si = Some (setField field value s) ∧
    completed (setField field value s) = completed s ∧
    match field with
    | FieldReps => reps (setField field value s) = value ∧
                   weight (setField field value s) = weight s
    | FieldWeight => weight (setField field value s) = value ∧
                     reps (setField field value s) = reps s
    end ∧
    (∀ i j, (i, j) ≠ (ei, si) → setAt aw' i j = setAt aw i j) ∧
    setCounts aw' = setCounts aw ∧
    template <$> aw_exercises aw' = template <$> aw_exercises aw ∧
    timer st' = timer st.
Proof.
  intros Haw Hs. rewrite <-setAt_jsonCopy in Hs.
  destruct (updateSet_Some (setField field value) ei si (jsonCopy aw) s Hs)
    as (aw' & Hup & Hat & Hothers & Hcounts & Htpl & _).
  exists (withActiveWorkout st (Some aw')), aw'.
  split; [by eapply handleSetInputChange_Ok|].
  split; [reflexivity|]. split; [exact Hat|].
  split; [by destruct field|]. split; [by destruct field|].
  split; [|split; [|split]].
  - intros i j Hij. by rewrite Hothers, setAt_jsonCopy.
  - by rewrite Hcounts, setCounts_jsonCopy.
  - rewrite Htpl. simpl. rewrite <-list_fmap_compose. by apply list_fmap_ext.
  - reflexivity.
Qed.

Lemma setInput_changes_one_field_witness :
  ∃ st' aw',
    handleSetInputChange 0 0 FieldReps (JStr "12") activeState = Ok st' ∧
    activeWorkout st' = Some aw' ∧
    setAt aw' 0 0 = Some {| reps := JStr "12"; weight := JStr "135";
                            completed := true |} ∧
    setAt aw' 0 1 = Some emptySet.
Proof.
  destruct (setInput_changes_one_field activeState benchSession
              {| reps := JStr "10"; weight := JStr "135"; completed := true |}
              0 0 FieldReps (JStr "12") eq_refl eq_refl)
    as (st' & aw' & Hin & Haw & Hat & _ & _ & Hothers & _).
  exists st', aw'. split; [exact Hin|]. split; [exact Haw|].
  split; [exact Hat|]. rewrite Hothers; [reflexivity|discriminate].
Defined.

(** X6. Typing the same value into the same input twice is the same as
    typing it once: the second [handleSetInputChange] leaves the state as
    the first one made it. *)
Theorem setInput_idempotent (st st1 : AppState) (ei si : nat)
    (field : SetField) (value : JsVal) :
  handleSetInputChange ei si field value st = Ok st1 →
  handleSetInputChange ei si field value st1 = Ok st1.
Proof.
  intros Hin.
  apply handleSetInputChange_Ok_inv in Hin as (aw & aw1 & Haw & Hup & ->).
  rewrite (handleSetInputChange_Ok ei si field value _ aw1 aw1); [done|done|].
  rewrite (updateSet_jsonCopy_clean _ _ _ _ _ Hup).
  rewrite (updateSet_updateSet _ _ _ _ _ aw1 Hup).
  rewrite <-Hup. apply updateSet_ext. intros s. by destruct field.
Qed.

Lemma setInput_idempotent_witness :
  ∃ st1,
    handleSetInputChange 0 1 FieldWeight (JStr "140") activeState = Ok st1 ∧
    handleSetInputChange 0 1 FieldWeight (JStr "140") st1 = Ok st1.
Proof.
  eexists. split; [reflexivity|].
  apply (setInput_idempotent activeState). reflexivity.
Defined.

(** X7. The reps and the weight of a set can be typed in either order:
    reps first and then weight gives the state that weight first and then
    reps gives. *)
Theorem setInput_fields_commute (st st1 st2 : AppState) (ei si : nat)
    (r w : JsVal) :
  handleSetInputChange ei si FieldReps r st = Ok st1 →
  handleSetInputChange ei si FieldWeight w st1 = Ok st2 →
  ∃ st1',
    handleSetInputChange ei si FieldWeight w st = Ok st1' ∧
    handleSetInputChange ei si FieldReps r st1' = Ok st2.
Proof.
  intros Hr Hw.
  apply handleSetInputChange_Ok_inv in Hr as (aw & aw1 & Haw & Hup1 & ->).
  apply handleSetInputChange_Ok_inv in Hw as (aw1' & aw2 & Haw1 & Hup2 & ->).
  simpl in Haw1. injection Haw1 as <-.
  rewrite (updateSet_jsonCopy_clean _ _ _ _ _ Hup1) in Hup2.
  rewrite (updateSet_updateSet _ _ _ _ _ aw1 Hup1) in Hup2.
  destruct (updateSet (setField FieldWeight w) ei si (jsonCopy aw))
    as [aw1'|] eqn:Hup1'.
  - exists (withActiveWorkout st (Some aw1')).
    split; [by eapply handleSetInputChange_Ok|].
    rewrite (handleSetInputChange_Ok ei si FieldReps r _ aw1' aw2); [done|done|].
    rewrite (updateSet_jsonCopy_clean _ _ _ _ _ Hup1').
    rewrite (updateSet_updateSet _ _ _ _ _ aw1' Hup1').
    rewrite <-Hup2. by apply updateSet_ext.
  - exfalso. unfold updateSet in Hup1, Hup1'.
    destruct (aw_exercises (jsonCopy aw) !! ei) as [ex|]; simpl in *; [|done].
    by destruct (loggedSets ex !! si) as [[| |s]|].
Qed.

Lemma setInput_fields_commute_witness :
  ∃ st1 st2 st1',
    handleSetInputChange 0 2 FieldReps (JStr "8") activeState = Ok st1 ∧
    handleSetInputChange 0 2 FieldWeight (JStr "140") st1 = Ok st2 ∧
    handleSetInputChange 0 2 FieldWeight (JStr "140") activeState = Ok st1' ∧
    handleSetInputChange 0 2 FieldReps (JStr "8") st1' = Ok st2.
Proof.
  eexists _, _.
  destruct (setInput_fields_commute activeState _ _ 0 2 (JStr "8") (JStr "140")
              eq_refl eq_refl) as (st1' & Hw & Hr).
  exists st1'. split; [reflexivity|]. split; [reflexivity|].
  split; [exact Hw|exact Hr].
Defined.

(** ** The sets of the session under the three handlers *)

Lemma arraySet_lookup_ne (arr : list Slot) (j si : nat) (v : Slot) :
  si ≠ j → (si < length arr)%nat → arraySet arr j v !! si = arr !! si.
Proof.
  intros Hne Hsi. unfold arraySet.
  destruct (decide (j < length arr)%nat).
  - by apply list_lookup_insert_ne.
  - destruct (Z.of_nat j <? maxArrayLength); [|done].
    by apply lookup_app_l.
Qed.

Lemma arraySet_lookup_eq (arr : list Slot) (j : nat) (v : Slot) :
  (j < length arr)%nat → arraySet arr j v !! j = Some v.
Proof.
  intros Hj. rewrite arraySet_in_range by done. by apply list_lookup_insert_eq.
Qed.

Lemma handleLogSet_Ok_inv (ei si : nat) (r w : JsVal) (st st' : AppState) :
  handleLogSet ei si r w st = Ok st' →
  ∃ aw ex,
    activeWorkout st = Some aw ∧ aw_exercises aw !! ei = Some ex ∧
    st' = withTimer
            (withActiveWorkout st
               (Some (withExercises aw
                  (<[ei := withLoggedSets ex
                             (arraySet (loggedSets ex) si
                                (Entry {| reps := r; weight := w;
                                          completed := true |}))]>
                     (aw_exercises aw)))))
            (startTimer None (timer st)).
Proof.
  unfold handleLogSet, logSetUpdater. intros Hlog.
  destruct (activeWorkout st) as [aw|]; [|discriminate Hlog].
  destruct (aw_exercises aw !! ei) as [ex|] eqn:Hex; [|discriminate Hlog].
  simpl in Hlog. injection Hlog as <-. by exists aw, ex.
Qed.

Lemma handleAddSetToExercise_Ok_inv (ei : nat) (st st' : AppState) :
  handleAddSetToExercise ei st = Ok st' →
  ∃ aw ex,
    activeWorkout st = Some aw ∧ aw_exercises aw !! ei = Some ex ∧
    Z.of_nat (length (loggedSets ex)) < maxArrayLength ∧
    st' = withActiveWorkout st
            (Some (withExercises aw
               (<[ei := withLoggedSets ex (loggedSets ex ++ [Entry emptySet])]>
                  (aw_exercises aw)))).
Proof.
  unfold handleAddSetToExercise, addSetUpdater, push. intros Hadd.
  destruct (activeWorkout st) as [aw|]; [|discriminate Hadd].
  destruct (aw_exercises aw !! ei) as [ex|] eqn:Hex; [|discriminate Hadd].
  destruct (Z.ltb_spec (Z.of_nat (length (loggedSets ex))) maxArrayLength);
    [|discriminate Hadd].
  simpl in Hadd. injection Hadd as <-. by exists aw, ex.
Qed.

Lemma updateSet_Some_inv (g : LoggedSet → LoggedSet) (ei si : nat)
    (aw aw' : ActiveWorkout) :
  updateSet g ei si aw = Some aw' → ∃ s, setAt aw ei si = Some s.
Proof.
  unfold updateSet, setAt.
  destruct (aw_exercises aw !! ei) as [ex|]; simpl; [|done].
  destruct (loggedSets ex !! si) as [[| |s]|]; try done. by exists s.
Qed.

(** X8. Adding a set to an existing exercise appends one empty, uncompleted
    placeholder after the sets it has, however many the template asked
    for (up to the largest array length); the sets before it, the targets,
    the other exercises and the rest timer are untouched. *)
Theorem addSet_appends_placeholder (st : AppState) (aw : ActiveWorkout)
    (ex : SessionExercise) (ei : nat) :
  activeWorkout st = Some aw →
  aw_exercises aw !! ei = Some ex →
  Z.of_nat (length (loggedSets ex)) < maxArrayLength →
  ∃ st' aw' ex',
    handleAddSetToExercise ei st = Ok st' ∧
    activeWorkout st' = Some aw' ∧
    aw_exercises aw' !! ei = Some ex' ∧
    loggedSets ex' = loggedSets ex ++ [Entry emptySet] ∧
    template ex' = template ex ∧
    (∀ k, k ≠ ei → aw_exercises aw' !! k = aw_exercises aw !! k) ∧
    length (aw_exercises aw') = length (aw_exercises aw) ∧
    timer st' = timer st.
Proof.
  intros Haw Hex Hlen.
  pose proof (lookup_lt_Some _ _ _ Hex) as Hei.
  eexists _, _, _. split.
  { unfold handleAddSetToExercise, addSetUpdater, push. rewrite Haw, Hex.
    replace (Z.of_nat (length (loggedSets ex)) <? maxArrayLength) with true
      by (symmetry; by apply Z.ltb_lt).
    reflexivity. }
  split; [reflexivity|]. simpl.
  split; [by apply list_lookup_insert_eq|].
  split; [reflexivity|]. split; [reflexivity|].
  split; [by intros k Hk; apply list_lookup_insert_ne|].
  split; [by apply length_insert|reflexivity].
Qed.

Lemma addSet_appends_placeholder_witness :
  ∃ st' aw',
    handleAddSetToExercise 0 activeState = Ok st' ∧
    activeWorkout st' = Some aw' ∧
    setCounts aw' = [4%nat] ∧ setAt aw' 0 3 = Some emptySet.
Proof.
  destruct (addSet_appends_placeholder activeState benchSession
              {| template := bench; loggedSets := _ |} 0 eq_refl eq_refl eq_refl)
    as (st' & aw' & ex' & Hadd & Haw & Hex & Hsets & _).
  exists st', aw'. split; [exact Hadd|]. split; [exact Haw|].
  vm_compute in Hadd. injection Hadd as <-.
  injection Haw as <-. split; reflexivity.
Defined.

(** What a call of a set handler keeps of the session. *)
Lemma setLoggerCall_keeps (st st' : AppState) (aw : ActiveWorkout) :
  setLoggerCall st st' → activeWorkout st = Some aw →
  ∃ aw',
    activeWorkout st' = Some aw' ∧
    templateId aw' = templateId aw ∧ aw_name aw' = aw_name aw ∧
    aw_bodyWeight aw' = aw_bodyWeight aw ∧ aw_notes aw' = aw_notes aw ∧
    isCompleted aw' = isCompleted aw ∧
    db st' = db st ∧ userId st' = userId st ∧
    bodyWeight st' = bodyWeight st ∧ workoutNotes st' = workoutNotes st.
Proof.
  intros [ei si r w st1 Hlog|ei si field value st1 Hin|ei st1 Hadd] Haw.
  - apply handleLogSet_Ok_inv in Hlog as (aw0 & ex & Haw0 & _ & ->).
    rewrite Haw in Haw0. injection Haw0 as <-. by eexists.
  - apply handleSetInputChange_Ok_inv in Hin as (aw0 & aw' & Haw0 & Hup & ->).
    rewrite Haw in Haw0. injection Haw0 as <-. exists aw'.
    unfold updateSet in Hup.
    destruct (aw_exercises (jsonCopy aw) !! ei) as [ex|]; simpl in Hup; [|done].
    destruct (loggedSets ex !! si) as [[| |s]|]; try done.
    by injection Hup as <-.
  - apply handleAddSetToExercise_Ok_inv in Hadd as (aw0 & ex & Haw0 & _ & _ & ->).
    rewrite Haw in Haw0. injection Haw0 as <-. by eexists.
Qed.

Lemma setLoggerCall_completedAt (st st' : AppState) (aw : ActiveWorkout)
    (ei si : nat) :
  setLoggerCall st st' → activeWorkout st = Some aw → completedAt aw ei si →
  ∃ aw', activeWorkout st' = Some aw' ∧ completedAt aw' ei si.
Proof.
  intros [i j r w st1 Hlog|i j field value st1 Hin|i st1 Hadd] Haw (s & Hs & Hc).
  - apply handleLogSet_Ok_inv in Hlog as (aw0 & exi & Haw0 & Hexi & ->).
    rewrite Haw in Haw0. injection Haw0 as <-.
    eexists. split; [reflexivity|]. unfold completedAt, setAt in *. simpl.
    destruct (aw_exercises aw !! ei) as [ex|] eqn:Hex; simpl in Hs; [|done].
    destruct (loggedSets ex !! si) as [[| |s0]|] eqn:Hsi; try done.
    injection Hs as ->.
    pose proof (lookup_lt_Some _ _ _ Hsi) as Hlt.
    destruct (decide (ei = i)) as [->|Hne].
    + rewrite list_lookup_insert_eq by by eapply lookup_lt_Some.
      assert (exi = ex) as -> by congruence. simpl.
      destruct (decide (si = j)) as [->|Hsj].
      * rewrite arraySet_lookup_eq by done. by eexists.
      * rewrite arraySet_lookup_ne, Hsi by done. by exists s.
    + rewrite list_lookup_insert_ne, Hex by done. simpl. rewrite Hsi. by exists s.
  - apply handleSetInputChange_Ok_inv in Hin as (aw0 & aw' & Haw0 & Hup & ->).
    rewrite Haw in Haw0. injection Haw0 as <-.
    exists aw'. split; [reflexivity|].
    destruct (updateSet_Some_inv _ _ _ _ _ Hup) as (s0 & Hs0).
    destruct (updateSet_Some (setField field value) i j _ s0 Hs0)
      as (aw'' & Hup' & Hat & Hothers & _).
    rewrite Hup in Hup'. injection Hup' as <-.
    rewrite <-setAt_jsonCopy in Hs.
    destruct (decide ((ei, si) = (i, j))) as [[= -> ->]|Hne].
    + exists (setField field value s0). split; [exact Hat|].
      assert (s0 = s) as -> by congruence. by destruct field.
    + exists s. by rewrite Hothers.
  - apply handleAddSetToExercise_Ok_inv in Hadd as (aw0 & exi & Haw0 & Hexi & _ & ->).
    rewrite Haw in Haw0. injection Haw0 as <-.
    eexists. split; [reflexivity|]. unfold completedAt, setAt in *. simpl.
    destruct (aw_exercises aw !! ei) as [ex|] eqn:Hex; simpl in Hs; [|done].
    destruct (loggedSets ex !! si) as [[| |s0]|] eqn:Hsi; try done.
    injection Hs as ->.
    destruct (decide (ei = i)) as [->|Hne].
    + rewrite list_lookup_insert_eq by by eapply lookup_lt_Some.
      assert (exi = ex) as -> by congruence. simpl.
      rewrite lookup_app_l by by eapply lookup_lt_Some. rewrite Hsi. by exists s.
    + rewrite list_lookup_insert_ne, Hex by done. simpl. rewrite Hsi. by exists s.
Qed.

Lemma setRowEvent_uiStep (st st' : AppState) :
  setRowEvent st st' → uiStep st st'.
Proof.
  intros [aw ex set ei si field value st1 Haw Hex Hset Hin
         |aw ex set ei si st1 Haw Hex Hset Hshown Hlog
         |ei st1 Hadd].
  - by eapply step_input.
  - by eapply step_log.
  - by eapply step_add.
Qed.

Lemma setRowEvent_call (st st' : AppState) :
  setRowEvent st st' → setLoggerCall st st'.
Proof.
  intros [aw ex set ei si field value st1 Haw Hex Hset Hin
         |aw ex set ei si st1 Haw Hex Hset Hshown Hlog
         |ei st1 Hadd].
  - by eapply call_setInput.
  - by eapply call_logSet.
  - by eapply call_addSet.
Qed.

(** X10. A completed set never goes back to uncompleted through the rows
    of sets of the workout screen. In a session whose arrays of sets hold
    a record at every position (as every session started through the app
    does), after any sequence of changes of the reps and weight inputs of
    rendered sets, presses of a shown "Log Set" button and presses of
    "Add Set", the session is still there, still holds a record at every
    position, and a set that was completed is completed. *)
Theorem completed_never_reverts (st st' : AppState) (aw : ActiveWorkout)
    (ei si : nat) :
  rtc setRowEvent st st' →
  activeWorkout st = Some aw → dense aw → completedAt aw ei si →
  ∃ aw', activeWorkout st' = Some aw' ∧ dense aw' ∧ completedAt aw' ei si.
Proof.
  intros Hevents. revert aw.
  induction Hevents as [st|st st1 st' Hevent _ IH]; intros aw Haw Hd Hc.
  - by exists aw.
  - destruct (setLoggerCall_completedAt st st1 aw ei si
                (setRowEvent_call _ _ Hevent) Haw Hc) as (aw1 & Haw1 & Hc1).
    apply (IH aw1); [exact Haw1| |exact Hc1].
    pose proof (uiStep_dense st st1 (setRowEvent_uiStep _ _ Hevent)) as Hd1.
    unfold denseState in Hd1. rewrite Haw, Haw1 in Hd1. by apply Hd1.
Qed.

Lemma completed_never_reverts_witness :
  ∃ st' aw',
    rtc setRowEvent activeState st' ∧
    activeWorkout st' = Some aw' ∧ dense aw' ∧ completedAt aw' 0 0 ∧
    setAt aw' 0 0 = Some {| reps := JStr ""; weight := JStr "135";
                            completed := true |} ∧
    setCounts aw' = [4%nat].
Proof.
  destruct (handleSetInputChange 0 0 FieldReps (JStr "") activeState)
    as [st1|e] eqn:Hin; [|discriminate Hin].
  destruct (handleAddSetToExercise 0 st1) as [st2|e] eqn:Hadd;
    [|vm_compute in Hin; injection Hin as <-; discriminate Hadd].
  assert (rtc setRowEvent activeState st2) as Hevents.
  { eapply rtc_l.
    { eapply (row_input activeState benchSession _ _ 0 0 FieldReps (JStr ""));
        [reflexivity|reflexivity|reflexivity|exact Hin]. }
    eapply rtc_l; [by eapply row_add|]. apply rtc_refl. }
  destruct (completed_never_reverts activeState st2 benchSession 0 0 Hevents
              eq_refl) as (aw' & Haw' & Hd & Hc).
  { repeat constructor; by eexists. }
  { eexists. split; reflexivity. }
  exists st2, aw'. split; [exact Hevents|]. split; [exact Haw'|].
  split; [exact Hd|]. split; [exact Hc|].
  vm_compute in Hin. injection Hin as <-.
  vm_compute in Hadd. injection Hadd as <-.
  injection Haw' as <-. split; reflexivity.
Defined.

(** ** Finishing and discarding *)

Lemma elem_of_insert_inv {A} (l : list A) (i : nat) (v x : A) :
  x ∈ <[i := v]> l → x = v ∨ x ∈ l.
Proof.
  intros Hx. apply list_elem_of_lookup in Hx as [k Hk].
  apply list_lookup_insert_Some in Hk as [(_ & -> & _)|[_ Hk]]; [by left|].
  right. by eapply list_elem_of_lookup_2.
Qed.

Lemma buildWorkoutLog_fields (st : AppState) (aw : ActiveWorkout)
    (log : WorkoutLog) :
  buildWorkoutLog st aw = Ok log →
  templateId (log_fields log) = templateId aw ∧
  aw_name (log_fields log) = aw_name aw ∧
  startTime (log_fields log) = startTime aw ∧
  isCompleted (log_fields log) = true ∧
  endTime log = serverTimestamp ∧
  aw_bodyWeight (log_fields log)
    = orStr (orStr (bodyWeight st) (aw_bodyWeight aw)) "" ∧
  aw_notes (log_fields log)
    = orStr (orStr (workoutNotes st) (aw_notes aw)) "".
Proof.
  unfold buildWorkoutLog.
  destruct (mapM finishExercise (aw_exercises aw)); [|discriminate].
  simpl. by intros [= <-].
Qed.

Lemma handleFinishWorkout_AddDoc_inv (addDoc : WorkoutLog → bool)
    (st st' : AppState) (effects : list Effect) (log : WorkoutLog) :
  handleFinishWorkout addDoc st = Ok (st', effects) → AddDoc log ∈ effects →
  ∃ aw, activeWorkout st = Some aw ∧ buildWorkoutLog st aw = Ok log.
Proof.
  unfold handleFinishWorkout. intros Hfin Hlog.
  destruct (db st), (userId st) as [uid|], (activeWorkout st) as [aw|];
    simpl in Hfin;
    try (injection Hfin as <- <-; by apply elem_of_nil in Hlog).
  destruct (truthyStr uid);
    [|injection Hfin as <- <-; by apply elem_of_nil in Hlog].
  destruct (buildWorkoutLog st aw) as [log'|e] eqn:Hbuild; [|discriminate Hfin].
  simpl in Hfin. exists aw. split; [done|].
  destruct (addDoc log'); injection Hfin as <- <-;
    repeat (apply elem_of_cons in Hlog as [Hlog|Hlog]; [congruence|]);
    by apply elem_of_nil in Hlog.
Qed.

Lemma orStr_empty (a : string) : orStr (orStr a "") "" = a.
Proof.
  unfold orStr, truthyStr. destruct (String.eqb_spec a ""); simpl; [done|].
  by destruct (String.eqb_spec a "").
Qed.

(** X11. [handleSetInputChange] works on a JSON copy of the session, and the
    copy of the [serverTimestamp()] sentinel in [startTime] is plain data:
    after any successful input change the session's [startTime] is no
    longer the sentinel, and a log written from then on carries that copy
    as its [startTime], while its [endTime] is the sentinel. *)
Theorem setInput_replaces_server_timestamp (st st' : AppState) (ei si : nat)
    (field : SetField) (value : JsVal) :
  handleSetInputChange ei si field value st = Ok st' →
  ∃ aw',
    activeWorkout st' = Some aw' ∧
    startTime aw' = jsonOfServerTimestamp ∧
    ∀ addDoc st2 effects log,
      handleFinishWorkout addDoc st' = Ok (st2, effects) →
      AddDoc log ∈ effects →
      startTime (log_fields log) = jsonOfServerTimestamp ∧
      endTime log = serverTimestamp.
Proof.
  intros Hin.
  apply handleSetInputChange_Ok_inv in Hin as (aw & aw' & Haw & Hup & ->).
  exists aw'. split; [reflexivity|].
  assert (startTime aw' = jsonOfServerTimestamp) as Hstart.
  { destruct (updateSet_Some_inv _ _ _ _ _ Hup) as (s & Hs).
    destruct (updateSet_Some (setField field value) ei si _ s Hs)
      as (aw'' & Hup' & _ & _ & _ & _ & Htime).
    rewrite Hup in Hup'. injection Hup' as <-. rewrite Htime. simpl.
    by destruct (startTime aw). }
  split; [exact Hstart|].
  intros addDoc st2 effects log Hfin Hlog.
  apply (handleFinishWorkout_AddDoc_inv _ _ _ _ log) in Hfin as (aw2 & Haw2 & Hbuild);
    [|done].
  simpl in Haw2. injection Haw2 as <-.
  apply buildWorkoutLog_fields in Hbuild as (_ & _ & Htime & _ & Hend & _).
  by rewrite Htime.
Qed.

Lemma setInput_replaces_server_timestamp_witness :
  ∃ st1 st2 aw1 aw2,
    handleStartWorkout pushDay idleState = Ok st1 ∧
    activeWorkout st1 = Some aw1 ∧ startTime aw1 = serverTimestamp ∧
    handleSetInputChange 0 0 FieldReps (JStr "10") st1 = Ok st2 ∧
    activeWorkout st2 = Some aw2 ∧ startTime aw2 = jsonOfServerTimestamp.
Proof.
  destruct (handleSetInputChange 0 0 FieldReps (JStr "10")
              (commit idleState (handleStartWorkout pushDay idleState)))
    as [st2|e] eqn:Hin; [|discriminate Hin].
  destruct (setInput_replaces_server_timestamp _ _ 0 0 FieldReps (JStr "10") Hin)
    as (aw2 & Haw2 & Htime & _).
  exists (commit idleState (handleStartWorkout pushDay idleState)), st2.
  eexists _, aw2. split; [reflexivity|]. split; [reflexivity|].
  split; [reflexivity|]. split; [exact Hin|]. split; [exact Haw2|exact Htime].
Defined.

(** What the events of the interface keep of the session's own fields. *)
Lemma uiStep_fresh (st st' : AppState) :
  uiStep st st' →
  (∀ aw, activeWorkout st = Some aw →
         aw_bodyWeight aw = "" ∧ aw_notes aw = "" ∧ isCompleted aw = false) →
  (∀ aw', activeWorkout st' = Some aw' →
          aw_bodyWeight aw' = "" ∧ aw_notes aw' = "" ∧ isCompleted aw' = false).
Proof.
  intros Hstep Hfresh.
  assert (∀ st1, setLoggerCall st st1 →
    ∀ aw', activeWorkout st1 = Some aw' →
           aw_bodyWeight aw' = "" ∧ aw_notes aw' = "" ∧ isCompleted aw' = false)
    as Hcall.
  { intros st1 Hcall aw' Haw'.
    destruct (activeWorkout st) as [aw|] eqn:Haw.
    - destruct (setLoggerCall_keeps st st1 aw Hcall Haw)
        as (aw1 & Haw1 & _ & _ & Hb & Hn & Hc & _).
      rewrite Haw' in Haw1. injection Haw1 as <-.
      destruct (Hfresh aw eq_refl) as (? & ? & ?). by rewrite Hb, Hn, Hc.
    - destruct Hcall as [ei si r w st1 H|ei si f v st1 H|ei st1 H].
      + apply handleLogSet_Ok_inv in H as (? & ? & ? & _). congruence.
      + apply handleSetInputChange_Ok_inv in H as (? & ? & ? & _). congruence.
      + apply handleAddSetToExercise_Ok_inv in H as (? & ? & ? & _). congruence. }
  destruct Hstep as [tpl st' Hstart
                    |aw ex set ei si field value st' Haw Hex Hset Hin
                    |aw ex set ei si st' Haw Hex Hset Hshown Hlog
                    |ei st' Hadd
                    |addDoc st' effects Hfin
                    | |op|value| |value|screen]; try done.
  - unfold handleStartWorkout, newActiveWorkout in Hstart.
    destruct (mapM _ _); [|discriminate Hstart].
    simpl in Hstart. injection Hstart as <-. simpl. by intros aw' [= <-].
  - apply Hcall. by eapply call_setInput.
  - apply Hcall. by eapply call_logSet.
  - apply Hcall. by eapply call_addSet.
  - apply handleFinishWorkout_Ok_cases in Hfin as [->| ->]; [done|].
    simpl. by intros aw' [=].
Qed.

Lemma reachable_fresh (st : AppState) :
  rtc uiStep idleState st →
  ∀ aw, activeWorkout st = Some aw →
        aw_bodyWeight aw = "" ∧ aw_notes aw = "" ∧ isCompleted aw = false.
Proof.
  apply (rtc_ind_r (λ st, ∀ aw, activeWorkout st = Some aw →
    aw_bodyWeight aw = "" ∧ aw_notes aw = "" ∧ isCompleted aw = false)).
  - intros aw [=].
  - intros st1 st' _ Hstep IH. by apply (uiStep_fresh st1 st' Hstep).
Qed.

(** X12. In every state the app reaches from its start through the events
    of the workout screens (starting a workout, the set inputs, "Log Set",
    "Add Set", the body weight and notes inputs, the timer, navigation,
    finishing, discarding), the session in progress has a record in every
    position of its arrays of sets, its own [bodyWeight] and [notes] are
    empty and it is not marked completed; so the body weight and the
    notes written to the log at finish are exactly what the two inputs
    hold then. *)
Theorem reachable_session_invariant (st : AppState) (aw : ActiveWorkout) :
  rtc uiStep idleState st → activeWorkout st = Some aw →
  dense aw ∧
  aw_bodyWeight aw = "" ∧ aw_notes aw = "" ∧ isCompleted aw = false ∧
  ∃ log,
    buildWorkoutLog st aw = Ok log ∧
    aw_bodyWeight (log_fields log) = bodyWeight st ∧
    aw_notes (log_fields log) = workoutNotes st.
Proof.
  intros Hreach Haw.
  assert (dense aw) as Hdense.
  { pose proof (reachable_dense st Hreach) as Hd.
    unfold denseState in Hd. by rewrite Haw in Hd. }
  destruct (reachable_fresh st Hreach aw Haw) as (Hb & Hn & Hc).
  split; [done|]. split; [done|]. split; [done|]. split; [done|].
  destruct (buildWorkoutLog_Ok st aw (dense_no_Null aw Hdense)) as (log & Hlog & _).
  exists log. split; [done|].
  apply buildWorkoutLog_fields in Hlog as (_ & _ & _ & _ & _ & Hbw & Hnotes).
  by rewrite Hbw, Hnotes, Hb, Hn, !orStr_empty.
Qed.

Lemma reachable_session_invariant_witness :
  ∃ st aw log,
    rtc uiStep idleState st ∧ activeWorkout st = Some aw ∧
    buildWorkoutLog st aw = Ok log ∧
    aw_bodyWeight (log_fields log) = "170" ∧
    aw_notes (log_fields log) = "felt strong" ∧
    setCounts aw = [3%nat].
Proof.
  destruct (handleStartWorkout pushDay idleState) as [st1|e] eqn:Hstart;
    [|discriminate Hstart].
  assert (rtc uiStep idleState
            (withWorkoutNotes (withBodyWeight st1 "170") "felt strong"))
    as Hreach.
  { eapply rtc_l; [by eapply step_start|].
    eapply rtc_l; [apply (step_bodyWeight _ "170")|].
    eapply rtc_l; [apply (step_notes _ "felt strong")|apply rtc_refl]. }
  vm_compute in Hstart. injection Hstart as <-.
  destruct (reachable_session_invariant _ _ Hreach eq_refl)
    as (_ & _ & _ & _ & log & Hlog & Hbw & Hnotes).
  eexists _, _, log. split; [exact Hreach|]. split; [reflexivity|].
  split; [exact Hlog|]. split; [exact Hbw|]. split; [exact Hnotes|reflexivity].
Defined.

Lemma signedIn_same (st st' : AppState) :
  db st' = db st → userId st' = userId st → signedIn st → signedIn st'.
Proof. unfold signedIn. by intros -> ->. Qed.

(** X13. A set that is logged is saved: after [handleLogSet] on an existing
    set with values [r] and [w], finishing the workout hands the store a
    log whose exercise at the same index contains the completed set
    [{ reps: r, weight: w, completed: true }]. *)
Theorem logged_set_reaches_log (addDoc : WorkoutLog → bool) (st : AppState)
    (aw : ActiveWorkout) (ex : SessionExercise) (ei si : nat) (r w : JsVal) :
  signedIn st → activeWorkout st = Some aw →
  aw_exercises aw !! ei = Some ex → (si < length (loggedSets ex))%nat →
  Forall (λ ex, Null ∉ loggedSets ex) (aw_exercises aw) →
  ∃ st1 st2 log effects ex',
    handleLogSet ei si r w st = Ok st1 ∧
    handleFinishWorkout addDoc st1 = Ok (st2, AddDoc log :: effects) ∧
    aw_exercises (log_fields log) !! ei = Some ex' ∧
    template ex' = template ex ∧
    Entry {| reps := r; weight := w; completed := true |} ∈ loggedSets ex'.
Proof.
  intros Hin Haw Hex Hsi Hnull.
  pose proof (lookup_lt_Some _ _ _ Hex) as Hei.
  rewrite (handleLogSet_in_range st aw ex) by done.
  set (logged := Entry {| reps := r; weight := w; completed := true |}).
  set (aw1 := withExercises aw
     (<[ei := withLoggedSets ex (<[si := logged]> (loggedSets ex))]>
        (aw_exercises aw))).
  set (st1 := withTimer (withActiveWorkout st (Some aw1))
                (startTimer None (timer st))).
  exists st1.
  assert (signedIn st1) as Hin1 by by apply (signedIn_same st).
  assert (Forall (λ ex, Null ∉ loggedSets ex) (aw_exercises aw1)) as Hnull1.
  { simpl. apply Forall_insert; [done|]. simpl. intros Hn.
    apply elem_of_insert_inv in Hn as [Hn|Hn]; [discriminate Hn|].
    by apply (Forall_lookup_1 _ _ _ _ Hnull Hex). }
  destruct (buildWorkoutLog_Ok st1 aw1 Hnull1) as (log & Hlog & Hexs).
  exists (if addDoc log then finishedState st1 else st1), log,
    (if addDoc log then []
     else [ConsoleError "Error finishing workout:"; Alert failedToSave]).
  eexists. split; [reflexivity|]. split.
  { rewrite (handleFinishWorkout_signedIn addDoc st1 aw1 log) by done.
    by destruct (addDoc log). }
  rewrite Hexs. simpl. rewrite list_lookup_fmap, list_lookup_insert_eq by done.
  simpl. split; [reflexivity|]. split; [reflexivity|].
  apply list_elem_of_filter. split; [reflexivity|].
  by apply list_elem_of_insert.
Qed.

Lemma logged_set_reaches_log_witness :
  ∃ st1 st2 log effects ex',
    handleLogSet 0 1 (JStr "8") (JStr "135") activeState = Ok st1 ∧
    handleFinishWorkout (λ _, true) st1 = Ok (st2, AddDoc log :: effects) ∧
    aw_exercises (log_fields log) !! 0%nat = Some ex' ∧
    Entry {| reps := JStr "8"; weight := JStr "135"; completed := true |}
      ∈ loggedSets ex'.
Proof.
  destruct (logged_set_reaches_log (λ _, true) activeState benchSession
              {| template := bench;
                 loggedSets :=
                   [Entry {| reps := JStr "10"; weight := JStr "135";
                             completed := true |};
                    Entry emptySet; Entry emptySet] |}
              0 1 (JStr "8") (JStr "135"))
    as (st1 & st2 & log & effects & ex' & Hlog & Hfin & Hex' & _ & Hset).
  - split; [by eexists|]. by exists "u1".
  - reflexivity.
  - reflexivity.
  - simpl. lia.
  - repeat constructor. simpl. rewrite !elem_of_cons, elem_of_nil.
    intros [|[|[|[]]]]; discriminate.
  - exists st1, st2, log, effects, ex'. auto.
Defined.

Lemma handleFinishWorkout_no_session (addDoc : WorkoutLog → bool)
    (st : AppState) :
  activeWorkout st = None → handleFinishWorkout addDoc st = Ok (st, []).
Proof.
  unfold handleFinishWorkout. intros Haw. rewrite Haw.
  by destruct (db st), (userId st).
Qed.

(** X14. [handleFinishWorkout] returns at once, silently, when the store
    handle or the user id is missing (or the id is the empty string) or
    there is no session in progress: the state is as before, nothing is
    handed to the store and no message is shown. *)
Theorem finish_guard_is_silent (addDoc : WorkoutLog → bool) (st : AppState) :
  db st = None ∨ userId st = None ∨ userId st = Some "" ∨
    activeWorkout st = None →
  handleFinishWorkout addDoc st = Ok (st, []).
Proof.
  unfold handleFinishWorkout.
  intros [Hdb|[Huid|[Huid|Haw]]].
  - by rewrite Hdb.
  - rewrite Huid. by destruct (db st).
  - rewrite Huid. by destruct (db st), (activeWorkout st).
  - rewrite Haw. by destruct (db st), (userId st).
Qed.

Lemma finish_guard_is_silent_witness :
  handleFinishWorkout (λ _, true) idleState = Ok (idleState, []).
Proof. apply finish_guard_is_silent. by right; right; right. Defined.

(** X15. When the store accepts the log, [handleFinishWorkout] ends the
    session: no session is left, the screen is Home, the rest timer is
    back in its initial state and the body weight and notes inputs are
    cleared. The log carries the session's template id, name and
    [startTime], is marked completed, and takes its body weight from the
    input when that is not empty. Finishing again then stores nothing. *)
Theorem finish_success_ends_session (addDoc : WorkoutLog → bool)
    (st : AppState) (aw : ActiveWorkout) (log : WorkoutLog) :
  signedIn st → activeWorkout st = Some aw →
  buildWorkoutLog st aw = Ok log → addDoc log = true →
  ∃ st',
    handleFinishWorkout addDoc st = Ok (st', [AddDoc log]) ∧
    activeWorkout st' = None ∧ currentScreen st' = ScreenHome ∧
    timer st' = initialTimer ∧
    bodyWeight st' = "" ∧ workoutNotes st' = "" ∧
    showBodyWeightInput st' = false ∧
    templateId (log_fields log) = templateId aw ∧
    aw_name (log_fields log) = aw_name aw ∧
    startTime (log_fields log) = startTime aw ∧
    isCompleted (log_fields log) = true ∧
    (bodyWeight st ≠ "" → aw_bodyWeight (log_fields log) = bodyWeight st) ∧
    (workoutNotes st ≠ "" → aw_notes (log_fields log) = workoutNotes st) ∧
    ∀ addDoc', handleFinishWorkout addDoc' st' = Ok (st', []).
Proof.
  intros Hin Haw Hlog Hok. exists (finishedState st).
  split.
  { rewrite (handleFinishWorkout_signedIn addDoc st aw log) by done.
    by rewrite Hok. }
  apply buildWorkoutLog_fields in Hlog
    as (Hid & Hname & Htime & Hc & _ & Hbw & Hnotes).
  repeat (split; [done|]).
  split; [|split].
  - intros Hne. rewrite Hbw. unfold orStr, truthyStr.
    destruct (String.eqb_spec (bodyWeight st) ""); [done|]. simpl.
    by destruct (String.eqb_spec (bodyWeight st) "").
  - intros Hne. rewrite Hnotes. unfold orStr, truthyStr.
    destruct (String.eqb_spec (workoutNotes st) ""); [done|]. simpl.
    by destruct (String.eqb_spec (workoutNotes st) "").
  - intros addDoc'. by apply handleFinishWorkout_no_session.
Qed.

Lemma finish_success_ends_session_witness :
  ∃ log st',
    handleFinishWorkout (λ _, true) activeState = Ok (st', [AddDoc log]) ∧
    activeWorkout st' = None ∧
    aw_bodyWeight (log_fields log) = "170" ∧
    handleFinishWorkout (λ _, true) st' = Ok (st', []).
Proof.
  destruct (buildWorkoutLog activeState benchSession) as [log|e] eqn:Hlog;
    [|discriminate Hlog].
  destruct (finish_success_ends_session (λ _, true) activeState benchSession log)
    as (st' & Hfin & Haw & _ & _ & _ & _ & _ & _ & _ & _ & _ & Hbw & _ & Hagain).
  - split; [by eexists|]. by exists "u1".
  - reflexivity.
  - exact Hlog.
  - reflexivity.
  - exists log, st'. split; [exact Hfin|]. split; [exact Haw|].
    split; [by apply Hbw|apply Hagain].
Defined.

(** X16. Starting a workout and discarding it at once leaves no session:
    the screen is Home, the rest timer is in its initial state, and a
    finish afterwards stores nothing. The app is not quite as before the
    start, though: the body weight and notes inputs are cleared and the
    body weight prompt stays switched on. *)
Theorem start_then_discard (workoutTemplate : WorkoutTemplate)
    (st st1 : AppState) :
  handleStartWorkout workoutTemplate st = Ok st1 →
  discardWorkout st1
  = {| db := db st;
       userId := userId st;
       activeWorkout := None;
       currentScreen := ScreenHome;
       timer := initialTimer;
       bodyWeight := "";
       showBodyWeightInput := true;
       workoutNotes := "" |} ∧
  ∀ addDoc,
    handleFinishWorkout addDoc (discardWorkout st1)
    = Ok (discardWorkout st1, []).
Proof.
  unfold handleStartWorkout. intros Hstart.
  destruct (newActiveWorkout workoutTemplate) as [aw|e]; [|discriminate Hstart].
  simpl in Hstart. injection Hstart as <-.
  split; [reflexivity|]. intros addDoc.
  by apply handleFinishWorkout_no_session.
Qed.

Lemma start_then_discard_witness :
  ∃ st1,
    handleStartWorkout legDay activeState = Ok st1 ∧
    activeWorkout (discardWorkout st1) = None ∧
    showBodyWeightInput (discardWorkout st1) = true ∧
    showBodyWeightInput activeState = false.
Proof.
  destruct (handleStartWorkout legDay activeState) as [st1|e] eqn:Hstart;
    [|discriminate Hstart].
  destruct (start_then_discard legDay activeState st1 Hstart) as [Hd _].
  exists st1. rewrite Hd. auto.
Defined.

(** ** Template management *)

Lemma trimStart_allWhiteSpace (s : string) :
  trimStart s = "" ↔ allWhiteSpace s = true.
Proof.
  induction s as [|c s IH]; simpl; [done|].
  destruct (isWhiteSpace c); simpl; [exact IH|]. split; discriminate.
Qed.

Lemma allWhiteSpace_rev_app (s acc : string) :
  allWhiteSpace (String.rev_app s acc) = allWhiteSpace s && allWhiteSpace acc.
Proof.
  revert acc. induction s as [|c s IH]; intros acc; simpl; [done|].
  rewrite IH. simpl. by destruct (isWhiteSpace c), (allWhiteSpace s).
Qed.

Lemma rev_app_empty (s acc : string) :
  String.rev_app s acc = "" → s = "" ∧ acc = "".
Proof.
  revert acc. induction s as [|c s IH]; intros acc; simpl; [done|].
  intros H. by apply IH in H as [_ [=]].
Qed.

Lemma allWhiteSpace_trimStart (s : string) :
  allWhiteSpace (trimStart s) = true → allWhiteSpace s = true.
Proof.
  induction s as [|c s IH]; simpl; [done|].
  destruct (isWhiteSpace c) eqn:Hc; simpl; [exact IH|]. by rewrite Hc.
Qed.

(** [s.trim()] is empty exactly when [s] is all white space. *)
Lemma trim_empty (s : string) : trim s = "" ↔ allWhiteSpace s = true.
Proof.
  unfold trim, trimEnd, String.rev. split.
  - intros H. apply rev_app_empty in H as [H _].
    apply trimStart_allWhiteSpace in H.
    rewrite allWhiteSpace_rev_app, andb_true_r in H.
    by apply allWhiteSpace_trimStart.
  - intros H. apply trimStart_allWhiteSpace in H. by rewrite H.
Qed.

Lemma handleSaveWorkoutTemplate_ready (store : WorkoutTemplate → bool)
    (ed : EditorState) (fs : Firestore) (uid : string)
    (editing : WorkoutTemplate) :
  ed_db ed = Some fs → ed_userId ed = Some uid → uid ≠ "" →
  editingWorkout ed = Some editing → allWhiteSpace (tpl_name editing) = false →
  handleSaveWorkoutTemplate store ed
  = if store (workoutToSave editing)
    then ({| ed_db := ed_db ed;
             ed_userId := ed_userId ed;
             editingWorkout := None;
             ed_currentScreen := ScreenHome |},
          [saveWrite (workoutToSave editing)])
    else (ed, [saveWrite (workoutToSave editing);
               SaveConsoleError "Error saving workout template:";
               SaveAlert failedToSaveWorkout]).
Proof.
  intros Hdb Huid Hne Hed Hname. unfold handleSaveWorkoutTemplate.
  rewrite Hdb, Huid, Hed.
  assert (truthyStr uid = true) as ->.
  { unfold truthyStr. by destruct (String.eqb_spec uid ""). }
  assert (truthyStr (trim (tpl_name editing)) = true) as ->; [|done].
  unfold truthyStr. destruct (String.eqb_spec (trim (tpl_name editing)) "") as [He|];
    [|done].
  apply trim_empty in He. congruence.
Qed.

(** X17. Saving is refused when the workout name is empty or all white
    space, and also when the store handle, the user id or the template
    being edited is missing: nothing is written, the editor stays as it
    is with its screen, and the one message shown is "Workout name cannot
    be empty." in each of these cases. *)
Theorem save_refused_without_name (store : WorkoutTemplate → bool)
    (ed : EditorState) :
  ed_db ed = None ∨ ed_userId ed = None ∨ editingWorkout ed = None ∨
    (∃ editing, editingWorkout ed = Some editing ∧
                allWhiteSpace (tpl_name editing) = true) →
  handleSaveWorkoutTemplate store ed = (ed, [SaveAlert nameCannotBeEmpty]).
Proof.
  unfold handleSaveWorkoutTemplate.
  intros [Hdb|[Huid|[Hed|(editing & Hed & Hname)]]].
  - by rewrite Hdb.
  - rewrite Huid. by destruct (ed_db ed).
  - rewrite Hed. by destruct (ed_db ed), (ed_userId ed).
  - rewrite Hed. destruct (ed_db ed), (ed_userId ed) as [uid|]; try done.
    apply trim_empty in Hname. rewrite Hname. simpl.
    by rewrite andb_false_r.
Qed.

Lemma save_refused_without_name_witness :
  ∃ ed,
    handleExerciseChange 0 FieldName "Bench" newEditor = Ok ed ∧
    (tpl_name <$> editingWorkout ed) = Some "" ∧
    handleSaveWorkoutTemplate (λ _, true) ed = (ed, [SaveAlert nameCannotBeEmpty]).
Proof.
  eexists. split; [reflexivity|]. split; [reflexivity|].
  apply save_refused_without_name. right; right; right.
  eexists. split; reflexivity.
Defined.

(** X18. With a signed-in user and names written in ASCII, the workout
    name not blank, saving writes the edited template with its id and name
    and with exactly those exercises whose name is not blank, in their
    order: to the template's own document when it has an id, as a new
    document otherwise. When the store accepts, the editor is closed and
    the screen is Home; when it rejects, the editor keeps every edit and
    the message is "Failed to save workout. Please try again.". *)
Theorem save_writes_named_exercises (store : WorkoutTemplate → bool)
    (ed : EditorState) (fs : Firestore) (uid : string)
    (editing : WorkoutTemplate) :
  ed_db ed = Some fs → ed_userId ed = Some uid → uid ≠ "" →
  editingWorkout ed = Some editing →
  asciiText (tpl_name editing) = true →
  Forall (λ ex, asciiText (ex_name ex) = true) (tpl_exercises editing) →
  allWhiteSpace (tpl_name editing) = false →
  ∃ w ed' effects,
    handleSaveWorkoutTemplate store ed = (ed', saveWrite w :: effects) ∧
    tpl_id w = tpl_id editing ∧ tpl_name w = tpl_name editing ∧
    tpl_exercises w `sublist_of` tpl_exercises editing ∧
    (∀ ex, ex ∈ tpl_exercises w ↔
           ex ∈ tpl_exercises editing ∧ allWhiteSpace (ex_name ex) = false) ∧
    (∀ id, tpl_id editing = Some id → id ≠ "" → saveWrite w = SetDocMerge id w) ∧
    (tpl_id editing = None → saveWrite w = AddTemplateDoc w) ∧
    (store w = true →
       editingWorkout ed' = None ∧ ed_currentScreen ed' = ScreenHome ∧
       effects = []) ∧
    (store w = false →
       ed' = ed ∧ SaveAlert failedToSaveWorkout ∈ effects).
Proof.
  intros Hdb Huid Hne Hed _ _ Hname.
  exists (workoutToSave editing),
    (if store (workoutToSave editing)
     then {| ed_db := ed_db ed; ed_userId := ed_userId ed;
             editingWorkout := None; ed_currentScreen := ScreenHome |}
     else ed),
    (if store (workoutToSave editing) then []
     else [SaveConsoleError "Error saving workout template:";
           SaveAlert failedToSaveWorkout]).
  split.
  { rewrite (handleSaveWorkoutTemplate_ready store ed fs uid editing) by done.
    by destruct (store (workoutToSave editing)). }
  split; [reflexivity|]. split; [reflexivity|].
  split; [apply sublist_filter|]. split.
  { intros ex. simpl. rewrite list_elem_of_filter. unfold hasName.
    split; intros [H1 H2].
    - split; [done|]. destruct (allWhiteSpace (ex_name ex)) eqn:Hw; [|done].
      by apply trim_empty in Hw.
    - split; [|done]. intros Ht. apply trim_empty in Ht. congruence. }
  split.
  { intros id Hid Hidne. unfold saveWrite. simpl. rewrite Hid.
    unfold truthyStr. by destruct (String.eqb_spec id ""). }
  split.
  { intros Hid. unfold saveWrite. simpl. by rewrite Hid. }
  split; intros Hstore; rewrite Hstore; [done|].
  split; [done|]. apply elem_of_cons. right. apply elem_of_cons. by left.
Qed.

Lemma draftEditor_reachable :
  ∃ ed1 ed2 ed3 tpl,
    handleExerciseChange 0 FieldName "Bench" newEditor = Ok ed1 ∧
    addExerciseToTemplate "e2" ed1 = Ok ed2 ∧
    handleExerciseChange 1 FieldName "  " ed2 = Ok ed3 ∧
    editingWorkout ed3 = Some tpl ∧
    withEditing ed3 (Some (setWorkoutName "Push Day" tpl)) = draftEditor.
Proof. by eexists _, _, _, _. Qed.

Lemma save_writes_named_exercises_witness :
  ∃ w ed',
    handleSaveWorkoutTemplate (λ _, true) draftEditor = (ed', [AddTemplateDoc w]) ∧
    editingWorkout ed' = None ∧
    ∀ ex, ex ∈ tpl_exercises w → allWhiteSpace (ex_name ex) = false.
Proof.
  destruct (save_writes_named_exercises (λ _, true) draftEditor FirestoreDb "u1"
              {| tpl_id := None; tpl_name := "Push Day";
                 tpl_exercises :=
                   [setExerciseField FieldName "Bench" (newExercise "e1");
                    setExerciseField FieldName "  " (newExercise "e2")] |})
    as (w & ed' & effects & Hsave & _ & _ & _ & Hexs & _ & Hnew & Hok & _).
  - reflexivity.
  - reflexivity.
  - discriminate.
  - reflexivity.
  - reflexivity.
  - repeat constructor.
  - reflexivity.
  - destruct (Hok eq_refl) as (Hclosed & _ & ->).
    rewrite (Hnew eq_refl) in Hsave.
    exists w, ed'. split; [exact Hsave|]. split; [exact Hclosed|].
    intros ex Hex. by apply Hexs in Hex as [_ Hex].
Defined.

Lemma filter_other_ids_all (exerciseId : string) (l : list TemplateExercise) :
  (∀ ex, ex ∈ l → ex_id ex ≠ exerciseId) →
  filter (λ ex, ex_id ex ≠ exerciseId) l = l.
Proof.
  induction l as [|ex l IH]; intros Hall; [done|].
  rewrite filter_cons_True by (apply Hall; by left).
  f_equal. apply IH. intros ex' Hex'. apply Hall. by right.
Qed.

Lemma filter_other_ids_length (exerciseId : string) (l : list TemplateExercise) :
  NoDup (ex_id <$> l) → (∃ ex, ex ∈ l ∧ ex_id ex = exerciseId) →
  S (length (filter (λ ex, ex_id ex ≠ exerciseId) l)) = length l.
Proof.
  induction l as [|ex l IH]; intros Hnodup (ex0 & Hin & Hid).
  - by apply elem_of_nil in Hin.
  - rewrite fmap_cons in Hnodup. apply NoDup_cons in Hnodup as [Hfresh Hnodup].
    destruct (decide (ex_id ex = exerciseId)) as [Heq|Hne].
    + rewrite filter_cons_False by (intros Hn; by apply Hn).
      rewrite filter_other_ids_all; [done|].
      intros ex' Hex' Hid'. apply Hfresh. rewrite Heq, <-Hid'.
      by apply list_elem_of_fmap_2.
    + rewrite filter_cons_True by done. simpl. f_equal. apply IH; [done|].
      exists ex0. split; [|done].
      apply elem_of_cons in Hin as [->|Hin]; [congruence|done].
Qed.

(** X19. Removing an exercise from the template being edited drops every
    exercise with that id and keeps the others in their order; name and
    id of the template stay. With distinct exercise ids, removing an id
    that is there makes the list exactly one shorter, and removing an id
    that is not there changes nothing. *)
Theorem removeExercise_drops_id (ed : EditorState) (editing : WorkoutTemplate)
    (exerciseId : string) :
  editingWorkout ed = Some editing →
  ∃ ed' w,
    removeExerciseFromTemplate exerciseId ed = Ok ed' ∧
    editingWorkout ed' = Some w ∧
    tpl_id w = tpl_id editing ∧ tpl_name w = tpl_name editing ∧
    (∀ ex, ex ∈ tpl_exercises w ↔
           ex ∈ tpl_exercises editing ∧ ex_id ex ≠ exerciseId) ∧
    tpl_exercises w `sublist_of` tpl_exercises editing ∧
    (NoDup (ex_id <$> tpl_exercises editing) →
     (∃ ex, ex ∈ tpl_exercises editing ∧ ex_id ex = exerciseId) →
     S (length (tpl_exercises w)) = length (tpl_exercises editing)) ∧
    ((∀ ex, ex ∈ tpl_exercises editing → ex_id ex ≠ exerciseId) →
     tpl_exercises w = tpl_exercises editing).
Proof.
  intros Hed. eexists _, _. split.
  { unfold removeExerciseFromTemplate. rewrite Hed. reflexivity. }
  split; [reflexivity|]. simpl. split; [reflexivity|]. split; [reflexivity|].
  split; [|split; [apply sublist_filter|split]].
  - intros ex. rewrite list_elem_of_filter. tauto.
  - apply filter_other_ids_length.
  - apply filter_other_ids_all.
Qed.

Lemma removeExercise_drops_id_witness :
  ∃ ed' w,
    removeExerciseFromTemplate "e2" draftEditor = Ok ed' ∧
    editingWorkout ed' = Some w ∧
    length (tpl_exercises w) = 1%nat ∧
    ∀ ex, ex ∈ tpl_exercises w → ex_id ex ≠ "e2".
Proof.
  destruct (removeExercise_drops_id draftEditor _ "e2" eq_refl)
    as (ed' & w & Hrm & Hed & _ & _ & Hexs & _ & Hlen & _).
  exists ed', w. split; [exact Hrm|]. split; [exact Hed|]. split.
  - assert (S (length (tpl_exercises w)) = 2%nat) as Hl; [|by injection Hl].
    apply Hlen.
    + simpl. repeat constructor; rewrite ?elem_of_cons, ?elem_of_nil;
        intros H; repeat destruct H as [H|H]; done.
    + exists (setExerciseField FieldName "  " (newExercise "e2")).
      split; [|reflexivity]. simpl. apply elem_of_cons. right.
      apply elem_of_cons. by left.
  - intros ex Hex. by apply Hexs in Hex as [_ Hne].
Defined.

(** X20. An input of the exercise at an existing index sets that one field
    of that exercise to the text typed: its id stays, the other exercises
    and the length of the list are untouched. When the field is Target
    Sets and the text is the numeral of a number from 1 to 1000, a
    workout started on the template seeds that many placeholder sets for
    the exercise. At an index with no exercise the updater throws a
    TypeError. *)
Theorem exerciseChange_sets_field (ed : EditorState) (editing : WorkoutTemplate)
    (workoutIndex : nat) (field : ExerciseField) (value : string) :
  editingWorkout ed = Some editing →
  (∀ ex, tpl_exercises editing !! workoutIndex = Some ex →
     ∃ ed' w,
       handleExerciseChange workoutIndex field value ed = Ok ed' ∧
       editingWorkout ed' = Some w ∧
       tpl_exercises w !! workoutIndex = Some (setExerciseField field value ex) ∧
       ex_id (setExerciseField field value ex) = ex_id ex ∧
       (∀ k, k ≠ workoutIndex →
             tpl_exercises w !! k = tpl_exercises editing !! k) ∧
       length (tpl_exercises w) = length (tpl_exercises editing) ∧
       tpl_name w = tpl_name editing ∧ tpl_id w = tpl_id editing ∧
       (∀ n, field = FieldTargetSets → value = pretty n →
             1 ≤ n ≤ 1000 →
             newSessionExercise (setExerciseField field value ex)
             = Ok {| template := setExerciseField field value ex;
                     loggedSets := replicate (Z.to_nat n) (Entry emptySet) |})) ∧
  (tpl_exercises editing !! workoutIndex = None →
   handleExerciseChange workoutIndex field value ed = Throw TypeError).
Proof.
  intros Hed. split.
  - intros ex Hex. pose proof (lookup_lt_Some _ _ _ Hex) as Hlt.
    eexists _, _. split.
    { unfold handleExerciseChange. rewrite Hed, Hex. reflexivity. }
    split; [reflexivity|]. simpl.
    split; [by apply list_lookup_insert_eq|].
    split; [by destruct field|].
    split; [by intros k Hk; apply list_lookup_insert_ne|].
    split; [by apply length_insert|].
    split; [reflexivity|]. split; [reflexivity|].
    intros n -> -> Hn. unfold newSessionExercise.
    rewrite (seedLoggedSets_positive _ n);
      [done|apply parseInt_JStr_pretty|unfold maxArrayLength; lia].
  - intros Hex. unfold handleExerciseChange. by rewrite Hed, Hex.
Qed.

Lemma exerciseChange_sets_field_witness :
  ∃ ed' w ex',
    handleExerciseChange 0 FieldTargetSets "5" draftEditor = Ok ed' ∧
    editingWorkout ed' = Some w ∧
    tpl_exercises w !! 0%nat = Some ex' ∧
    (loggedSets <$> newSessionExercise ex')
    = Ok (replicate 5 (Entry emptySet)) ∧
    handleExerciseChange 2 FieldTargetSets "5" draftEditor = Throw TypeError.
Proof.
  destruct (exerciseChange_sets_field draftEditor _ 0 FieldTargetSets "5" eq_refl)
    as [Hin _].
  destruct (exerciseChange_sets_field draftEditor _ 2 FieldTargetSets "5" eq_refl)
    as [_ Hout].
  destruct (Hin _ eq_refl)
    as (ed' & w & Hchange & Hed & Hex & _ & _ & _ & _ & _ & Hseed).
  exists ed', w. eexists. split; [exact Hchange|]. split; [exact Hed|].
  split; [exact Hex|]. split.
  - rewrite (Hseed 5 eq_refl eq_refl); [reflexivity|lia].
  - by apply Hout.
Defined.

(** X21. "Add Exercise" appends one exercise with the generated id, an
    empty name and the default targets after the exercises of the
    template being edited, which stay as they are; an exercise left at the
    default targets seeds three placeholder sets when a workout is
    started on it, whatever its id and name. Without a template being
    edited the updater throws a TypeError. *)
Theorem addExercise_appends_default (ed : EditorState) (id : string) :
  (∀ editing, editingWorkout ed = Some editing →
     ∃ ed' w,
       addExerciseToTemplate id ed = Ok ed' ∧
       editingWorkout ed' = Some w ∧
       tpl_exercises w = tpl_exercises editing ++ [newExercise id] ∧
       tpl_name w = tpl_name editing ∧ tpl_id w = tpl_id editing) ∧
  (editingWorkout ed = None → addExerciseToTemplate id ed = Throw TypeError) ∧
  (∀ name,
     newSessionExercise (setExerciseField FieldName name (newExercise id))
     = Ok {| template := setExerciseField FieldName name (newExercise id);
             loggedSets := replicate 3 (Entry emptySet) |}).
Proof.
  split; [|split].
  - intros editing Hed. eexists _, _. split.
    { unfold addExerciseToTemplate. rewrite Hed. reflexivity. }
    done.
  - intros Hed. unfold addExerciseToTemplate. by rewrite Hed.
  - reflexivity.
Qed.

Lemma addExercise_appends_default_witness :
  ∃ ed' w,
    addExerciseToTemplate "e3" draftEditor = Ok ed' ∧
    editingWorkout ed' = Some w ∧
    ex_id <$> tpl_exercises w = ["e1"; "e2"; "e3"].
Proof.
  destruct (addExercise_appends_default draftEditor "e3") as (Hadd & _ & _).
  destruct (Hadd _ eq_refl) as (ed' & w & Happ & Hed & Hexs & _).
  exists ed', w. split; [exact Happ|]. split; [exact Hed|].
  rewrite Hexs. reflexivity.
Defined.

(** ** Saved templates and their ids *)

Lemma editorStep_keeps (ed ed' : EditorState) :
  editorStep ed ed' →
  ed_db ed' = ed_db ed ∧ ed_userId ed' = ed_userId ed ∧
  ∃ w w', editingWorkout ed = Some w ∧ editingWorkout ed' = Some w' ∧
          tpl_id w' = tpl_id w.
Proof.
  intros [i field value ed1 H|value prev Hprev|id ed1 H|exerciseId ed1 H].
  - unfold handleExerciseChange in H.
    destruct (editingWorkout ed) as [w|] eqn:Hw; [|discriminate H].
    destruct (tpl_exercises w !! i); [|discriminate H].
    injection H as <-. split; [done|]. split; [done|]. by eexists _, _.
  - split; [done|]. split; [done|]. by eexists _, _.
  - unfold addExerciseToTemplate in H.
    destruct (editingWorkout ed) as [w|] eqn:Hw; [|discriminate H].
    injection H as <-. split; [done|]. split; [done|]. by eexists _, _.
  - unfold removeExerciseFromTemplate in H.
    destruct (editingWorkout ed) as [w|] eqn:Hw; [|discriminate H].
    injection H as <-. split; [done|]. split; [done|]. by eexists _, _.
Qed.

Lemma editorSteps_keep (ed ed' : EditorState) (w : WorkoutTemplate) :
  rtc editorStep ed ed' → editingWorkout ed = Some w →
  ed_db ed' = ed_db ed ∧ ed_userId ed' = ed_userId ed ∧
  ∃ w', editingWorkout ed' = Some w' ∧ tpl_id w' = tpl_id w.
Proof.
  intros Hsteps. revert w.
  induction Hsteps as [ed|ed ed1 ed' Hstep _ IH]; intros w Hw.
  - split; [done|]. split; [done|]. by exists w.
  - apply editorStep_keeps in Hstep as (Hdb & Huid & w0 & w1 & Hw0 & Hw1 & Hid).
    rewrite Hw in Hw0. injection Hw0 as <-.
    destruct (IH w1 Hw1) as (Hdb' & Huid' & w' & Hw' & Hid').
    split; [congruence|]. split; [congruence|]. exists w'. split; [done|congruence].
Qed.

Lemma handleSaveWorkoutTemplate_write (store : WorkoutTemplate → bool)
    (ed ed' : EditorState) (effects : list SaveEffect) (write : SaveEffect) :
  handleSaveWorkoutTemplate store ed = (ed', effects) →
  write ∈ effects → (∀ msg, write ≠ SaveAlert msg) →
  (∀ msg, write ≠ SaveConsoleError msg) →
  ∃ editing, editingWorkout ed = Some editing ∧
             write = saveWrite (workoutToSave editing).
Proof.
  unfold handleSaveWorkoutTemplate. intros Hsave Hin Halert Herr.
  assert (∀ msg, write ∈ [SaveAlert msg] → False) as Hno.
  { intros msg H. apply list_elem_of_singleton in H. by apply (Halert msg). }
  destruct (ed_db ed), (ed_userId ed) as [uid|], (editingWorkout ed) as [editing|];
    try (injection Hsave as <- <-; by apply Hno in Hin).
  destruct (_ && _); [|injection Hsave as <- <-; by apply Hno in Hin].
  exists editing. split; [done|].
  destruct (store (workoutToSave editing)); injection Hsave as <- <-.
  - by apply list_elem_of_singleton in Hin.
  - apply elem_of_cons in Hin as [->|Hin]; [done|].
    apply elem_of_cons in Hin as [->|Hin]; [by edestruct Herr|].
    by apply Hno in Hin.
Qed.

(** X22. A template created in the app never gets its document updated.
    Its first save writes a new document whose data holds [id: null]; the
    listener builds the template from the document as
    [{ id: doc.id, ...doc.data() }], where the stored [null] takes the
    place of the document id; so however the template is then edited,
    a later save writes another new document and never a [setDoc] on the
    existing one, and a workout started on the template carries no
    template id. *)
Theorem app_created_template_is_never_updated
    (store : WorkoutTemplate → bool) (ed : EditorState) (newId docId : string)
    (ed1 ed2 ed2' ed3 : EditorState) (effects effects' : list SaveEffect) :
  rtc editorStep (handleCreateNewWorkout newId ed) ed1 →
  handleSaveWorkoutTemplate store ed1 = (ed2, effects) →
  ∀ w, AddTemplateDoc w ∈ effects ∨ (∃ id, SetDocMerge id w ∈ effects) →
    AddTemplateDoc w ∈ effects ∧ tpl_id w = None ∧
    tpl_id (templateOfDoc docId w) = None ∧
    (∀ aw, newActiveWorkout (templateOfDoc docId w) = Ok aw →
           templateId aw = None) ∧
    (rtc editorStep (handleEditWorkoutTemplate (templateOfDoc docId w) ed2) ed2' →
     handleSaveWorkoutTemplate store ed2' = (ed3, effects') →
     ∀ id w', SetDocMerge id w' ∉ effects').
Proof.
  intros Hedits Hsave w Hw.
  destruct (editorSteps_keep _ ed1 _ Hedits eq_refl)
    as (_ & _ & editing & Hediting & Hid).
  simpl in Hid.
  assert (∀ write, write ∈ effects → (∀ msg, write ≠ SaveAlert msg) →
            (∀ msg, write ≠ SaveConsoleError msg) →
            write = AddTemplateDoc (workoutToSave editing)) as Hwrite.
  { intros write Hin Ha He.
    destruct (handleSaveWorkoutTemplate_write _ _ _ _ write Hsave Hin Ha He)
      as (editing0 & Hed0 & ->).
    rewrite Hediting in Hed0. injection Hed0 as <-.
    unfold saveWrite. simpl. by rewrite Hid. }
  assert (AddTemplateDoc w ∈ effects ∧ w = workoutToSave editing) as [Hadd Heqw].
  { destruct Hw as [Hw|[id Hw]].
    - split; [done|].
      assert (AddTemplateDoc w = AddTemplateDoc (workoutToSave editing)) as Heq
        by (apply Hwrite; done).
      by injection Heq.
    - assert (SetDocMerge id w = AddTemplateDoc (workoutToSave editing)) as Heq
        by (apply Hwrite; done).
      discriminate Heq. }
  subst w.
  split; [done|]. split; [done|]. split; [done|]. split.
  { unfold newActiveWorkout. intros aw Haw.
    destruct (mapM _ _); [|discriminate Haw].
    simpl in Haw. injection Haw as <-. exact Hid. }
  intros Hedits' Hsave' id w' Hin.
  destruct (editorSteps_keep _ ed2' _ Hedits' eq_refl)
    as (_ & _ & editing' & Hediting' & Hid').
  simpl in Hid'.
  destruct (handleSaveWorkoutTemplate_write _ _ _ _ _ Hsave' Hin)
    as (editing0 & Hed0 & Heq); [done|done|].
  rewrite Hediting' in Hed0. injection Hed0 as <-.
  unfold saveWrite in Heq. simpl in Heq. rewrite Hid', Hid in Heq. discriminate Heq.
Qed.

Lemma draftEditor_steps : rtc editorStep newEditor draftEditor.
Proof.
  eapply rtc_l; [by eapply (edit_exercise _ 0 FieldName "Bench")|].
  eapply rtc_l; [by eapply (edit_add _ "e2")|].
  eapply rtc_l; [by eapply (edit_exercise _ 1 FieldName "  ")|].
  eapply rtc_l; [by eapply (edit_name _ "Push Day")|].
  apply rtc_refl.
Qed.

Lemma app_created_template_is_never_updated_witness :
  ∃ w ed2,
    handleSaveWorkoutTemplate (λ _, true) draftEditor = (ed2, [AddTemplateDoc w]) ∧
    tpl_id (templateOfDoc "doc1" w) = None ∧
    ∀ id w',
      SetDocMerge id w'
      ∉ (handleSaveWorkoutTemplate (λ _, true)
           (handleEditWorkoutTemplate (templateOfDoc "doc1" w) ed2)).2.
Proof.
  destruct (handleSaveWorkoutTemplate (λ _, true) draftEditor)
    as [ed2 effects] eqn:Hsave.
  assert (∃ w, effects = [AddTemplateDoc w]) as [w ->].
  { vm_compute in Hsave. injection Hsave as _ <-. by eexists. }
  destruct (handleSaveWorkoutTemplate (λ _, true)
              (handleEditWorkoutTemplate (templateOfDoc "doc1" w) ed2))
    as [ed3 effects'] eqn:Hsave'.
  destruct (app_created_template_is_never_updated (λ _, true)
              {| ed_db := Some FirestoreDb; ed_userId := Some "u1";
                 editingWorkout := None; ed_currentScreen := ScreenHome |}
              "e1" "doc1" draftEditor ed2
              (handleEditWorkoutTemplate (templateOfDoc "doc1" w) ed2)
              ed3 [AddTemplateDoc w] effects' draftEditor_steps Hsave w)
    as (_ & _ & Hnone & _ & Hnever).
  { left. apply list_elem_of_singleton. reflexivity. }
  exists w, ed2. split; [reflexivity|]. split; [exact Hnone|].
  rewrite Hsave'. simpl. apply Hnever; [apply rtc_refl|exact Hsave'].
Defined.

(** ** Workout history *)

Lemma insertSorted_Permutation {A} (compare : A → A → Z) (x : A) (l : list A) :
  insertSorted compare x l ≡ₚ x :: l.
Proof.
  induction l as [|y l IH]; simpl; [done|].
  destruct (compare x y <=? 0); [done|].
  rewrite IH. apply Permutation_swap.
Qed.

Lemma insertSorted_sorted (x : FetchedLog) (l : list FetchedLog) :
  StronglySorted (λ a b, startOrZero b ≤ startOrZero a) l →
  StronglySorted (λ a b, startOrZero b ≤ startOrZero a)
    (insertSorted byStartTimeDesc x l).
Proof.
  induction 1 as [|y l Hsorted IH Hy]; simpl.
  - repeat constructor.
  - unfold byStartTimeDesc at 1.
    destruct (Z.leb_spec (startOrZero y - startOrZero x) 0) as [Hle|Hgt].
    + constructor; [by constructor|].
      constructor; [lia|].
      eapply Forall_impl; [exact Hy|]. simpl. intros z Hz. lia.
    + constructor; [exact IH|].
      rewrite insertSorted_Permutation. constructor; [lia|exact Hy].
Qed.

Lemma insertSorted_filter (k : Z) (x : FetchedLog) (l : list FetchedLog) :
  filter (λ a, startOrZero a = k) (insertSorted byStartTimeDesc x l)
  = filter (λ a, startOrZero a = k) (x :: l).
Proof.
  induction l as [|y l IH]; simpl; [done|].
  unfold byStartTimeDesc at 1.
  destruct (Z.leb_spec (startOrZero y - startOrZero x) 0) as [Hle|Hgt]; [done|].
  destruct (decide (startOrZero y = k)) as [Hy|Hy].
  - rewrite (filter_cons_True _ y) by done. rewrite IH.
    rewrite (filter_cons_False _ x) by lia.
    rewrite (filter_cons_False _ x) by lia.
    by rewrite (filter_cons_True _ y) by done.
  - rewrite (filter_cons_False _ y) by done. rewrite IH.
    destruct (decide (startOrZero x = k)) as [Hx|Hx].
    + rewrite !(filter_cons_True _ x) by done.
      by rewrite (filter_cons_False _ y) by done.
    + rewrite !(filter_cons_False _ x) by done.
      by rewrite (filter_cons_False _ y) by done.
Qed.

(** X23. The history list is the fetched logs rearranged, none lost or
    doubled, with the latest start time first, where a log whose
    [startTime] is not a timestamp counts as time 0; logs with the same
    start time keep the order the snapshot gave them. *)
Theorem history_latest_first (fetchedLogs : list FetchedLog) :
  sortLogs fetchedLogs ≡ₚ fetchedLogs ∧
  StronglySorted (λ a b, startOrZero b ≤ startOrZero a) (sortLogs fetchedLogs) ∧
  ∀ k, filter (λ a, startOrZero a = k) (sortLogs fetchedLogs)
       = filter (λ a, startOrZero a = k) fetchedLogs.
Proof.
  unfold sortLogs, arraySort.
  induction fetchedLogs as [|x l (Hperm & Hsorted & Hstable)]; simpl.
  - split; [done|]. split; [constructor|done].
  - split; [by rewrite insertSorted_Permutation, Hperm|].
    split; [by apply insertSorted_sorted|].
    intros k. rewrite insertSorted_filter.
    destruct (decide (startOrZero x = k)) as [Hx|Hx].
    + rewrite !(filter_cons_True _ x) by done. by rewrite Hstable.
    + rewrite !(filter_cons_False _ x) by done. apply Hstable.
Qed.

(** ** The displayed time *)

Lemma pretty_N_char_noColon (d : N) : Ascii.eqb (pretty_N_char d) ":" = false.
Proof. unfold pretty_N_char. by repeat case_match. Qed.

Lemma pretty_N_go_noColon (x : N) (s : string) :
  noColon s = true → noColon (pretty_N_go x s) = true.
Proof.
  revert s. induction (N.lt_wf_0 x) as [x _ IH]. intros s Hs.
  destruct (decide (x = 0%N)) as [->|Hx]; [by rewrite pretty_N_go_0|].
  rewrite pretty_N_go_step by lia. apply IH; [apply N.div_lt; lia|].
  simpl. by rewrite pretty_N_char_noColon.
Qed.

Lemma pretty_noColon (n : Z) : 0 ≤ n → noColon (pretty n) = true.
Proof.
  intros Hn. destruct n as [|p|p]; [done| |lia].
  unfold pretty, pretty_Z, pretty, pretty_positive, pretty, pretty_N.
  rewrite decide_False by done. by apply pretty_N_go_noColon.
Qed.

Lemma app_colon_inj (p q x y : string) :
  noColon p = true → noColon q = true →
  p +:+ String ":" x = q +:+ String ":" y → p = q ∧ x = y.
Proof.
  revert q. induction p as [|c p IH]; intros [|d q]; simpl; intros Hp Hq Heq.
  - by injection Heq.
  - injection Heq as <- _. by rewrite Ascii.eqb_refl in Hq.
  - injection Heq as -> _. by rewrite Ascii.eqb_refl in Hp.
  - injection Heq as -> Heq.
    apply andb_true_iff in Hp as [_ Hp]. apply andb_true_iff in Hq as [_ Hq].
    destruct (IH q Hp Hq Heq) as [-> ->]. done.
Qed.

Lemma digitChar_inj (d e : Z) :
  0 ≤ d < 10 → 0 ≤ e < 10 → digitChar d = digitChar e → d = e.
Proof.
  unfold digitChar. intros Hd He Heq.
  apply (f_equal nat_of_ascii) in Heq.
  rewrite !nat_ascii_embedding in Heq by lia. lia.
Qed.

Lemma twoDigits_inj (s t : Z) :
  0 ≤ s < 60 → 0 ≤ t < 60 → twoDigits s = twoDigits t → s = t.
Proof.
  unfold twoDigits. intros Hs Ht [= H1 H2].
  apply digitChar_inj in H1;
    [|split; [apply Z.div_pos; lia|apply Z.div_lt_upper_bound; lia]..].
  apply digitChar_inj in H2; [|apply Z.mod_pos_bound; lia..].
  rewrite (Z.div_mod s 10), (Z.div_mod t 10) by lia. lia.
Qed.

(** X24. The display tells times apart: two different non-negative numbers
    of seconds are never formatted to the same text. *)
Theorem formatTime_injective (a b : Z) :
  0 ≤ a → 0 ≤ b → formatTime a = formatTime b → a = b.
Proof.
  intros Ha Hb Heq.
  assert (∀ n, 0 ≤ n → formatTime n
            = pretty (n `div` 60) +:+ String ":" (twoDigits (n `mod` 60))) as Hfmt.
  { intros n Hn. unfold formatTime. cbv zeta.
    rewrite Z.rem_mod_nonneg by lia.
    rewrite pad_two_digits; [reflexivity|]. apply Z.mod_pos_bound. lia. }
  rewrite !Hfmt in Heq by done.
  apply app_colon_inj in Heq as [Hmin Hsec];
    [|apply pretty_noColon; apply Z.div_pos; lia..].
  apply (inj pretty) in Hmin.
  apply twoDigits_inj in Hsec; [|apply Z.mod_pos_bound; lia..].
  rewrite (Z.div_mod a 60), (Z.div_mod b 60) by lia. lia.
Qed.

Lemma formatTime_injective_witness :
  formatTime 59 ≠ formatTime 60 ∧ 180 = 3 * 60.
Proof.
  split.
  - intros Heq. apply formatTime_injective in Heq; lia.
  - apply (formatTime_injective 180 (3 * 60)); [lia|lia|reflexivity].
Defined.
